(** * sockr: session lifecycle and message routing

    A shallow embedding of the sockr client and server cores:
    - [Server]: [Connection] (core/Connection.ts), the server-side
      [ConnectionManager] registry, and the event handlers installed by
      [AuthPlugin], [PresencePlugin] and [MessagePlugin];
    - [Client]: the client-side [ConnectionManager] state machine
      (client/core/ConnectionManager.ts) and the transport handlers and
      reconnection loop of [SocketClient].

    JavaScript [Map]s are finite maps ([gmap]) keyed by strings, and a plain
    object used as a dictionary is the finite map of its own properties;
    JavaScript numbers that hold counters and
    millisecond delays are integers ([Z]); a string is falsy exactly when it
    is empty. *)

From stdpp Require Import gmap strings list fin_maps pretty.
From Stdlib Require Import ZArith.

Local Open Scope string_scope.
Local Open Scope list_scope.

(** JavaScript truthiness of a string: only the empty string is falsy. *)
Definition truthy (s : string) : bool := if decide (s = "") then false else true.

(** ** Shared payload shapes (sockr-shared) *)

(** [metadata?: Record<string, any>] is carried through untouched; it is kept
    as an opaque serialised value. *)
Definition Metadata : Type := string.

Module User.
Record t : Type := mk {
  id : string;
  socketId : string;
  connectedAt : Z;
  metadata : option Metadata
}.
End User.

(** * Server *)

Module Server.

(** ** core/Connection.ts *)

(** The wrapped transport socket is identified by its id. *)
Record Connection : Type := mkConnection {
  socket : string;
  user : option User.t;
  isAuthenticated : bool
}.

(** [new Connection(socket)] *)
Definition newConnection (socket_id : string) : Connection :=
  {| socket := socket_id; user := None; isAuthenticated := false |}.

Definition authenticate (u : User.t) (c : Connection) : Connection :=
  {| socket := socket c; user := Some u; isAuthenticated := true |}.

Definition getUser (c : Connection) : option User.t := user c.

(** [this.user?.id || null]: an empty id reads as [null]. *)
Definition getUserId (c : Connection) : option string :=
  match user c with
  | Some u => if truthy (User.id u) then Some (User.id u) else None
  | None => None
  end.

Definition getSocketId (c : Connection) : string := socket c.

Definition isAuth (c : Connection) : bool := isAuthenticated c.

(** ** core/ConnectionManager.ts (server registry) *)

Record ConnectionManager : Type := mkConnectionManager {
  connections : gmap string Connection;
  userSockets : gmap string string
}.

(** [new ConnectionManager()] *)
Definition newConnectionManager : ConnectionManager :=
  {| connections := ∅; userSockets := ∅ |}.

Definition addConnection (c : Connection) (m : ConnectionManager) : ConnectionManager :=
  {| connections := <[getSocketId c := c]> (connections m);
     userSockets := userSockets m |}.

Definition removeConnection (socketId : string) (m : ConnectionManager) : ConnectionManager :=
  match connections m !! socketId with
  | Some connection =>
      {| connections := delete socketId (connections m);
         userSockets :=
           match getUserId connection with
           | Some userId => delete userId (userSockets m)
           | None => userSockets m
           end |}
  | None => m
  end.

Definition getConnection (socketId : string) (m : ConnectionManager) : option Connection :=
  connections m !! socketId.

Definition getConnectionByUserId (userId : string) (m : ConnectionManager) : option Connection :=
  match userSockets m !! userId with
  | Some socketId => if truthy socketId then connections m !! socketId else None
  | None => None
  end.

(** [connection.authenticate(user)] mutates the registered object in place;
    a Connection is only ever stored under its own socket id, so the
    mutation is an update of the entry that was looked up. *)
Definition authenticateConnection (socketId : string) (u : User.t) (m : ConnectionManager)
  : ConnectionManager :=
  match connections m !! socketId with
  | Some connection =>
      {| connections := <[socketId := authenticate u connection]> (connections m);
         userSockets := <[User.id u := socketId]> (userSockets m) |}
  | None => m
  end.

Definition isUserOnline (userId : string) (m : ConnectionManager) : bool :=
  bool_decide (is_Some (userSockets m !! userId)).

Definition getOnlineUsers (m : ConnectionManager) : list string :=
  (map_to_list (userSockets m)).*1.

(** [statuses[userId] = value] on a plain object literal.  The object's own
    properties are a finite map; the one name that does not create an own
    property is ["__proto__"], which reaches the accessor inherited from
    [Object.prototype], and that setter ignores a value that is neither an
    object nor [null]. *)
Definition assignProperty (name : string) (value : bool) (object : gmap string bool)
  : gmap string bool :=
  if decide (name = "__proto__") then object else <[name := value]> object.

(** The result is the set of own properties of [statuses]. *)
Definition getUsersOnlineStatus (userIds : list string) (m : ConnectionManager)
  : gmap string bool :=
  foldl (λ statuses userId, assignProperty userId (isUserOnline userId m) statuses)
    ∅ userIds.

Definition getTotalConnections (m : ConnectionManager) : nat := size (connections m).

(** Sequences of registry operations. *)
Inductive RegistryOp : Type :=
| OpAdd (c : Connection)
| OpAuthenticate (socketId : string) (u : User.t)
| OpRemove (socketId : string).

Definition applyOp (m : ConnectionManager) (op : RegistryOp) : ConnectionManager :=
  match op with
  | OpAdd c => addConnection c m
  | OpAuthenticate socketId u => authenticateConnection socketId u m
  | OpRemove socketId => removeConnection socketId m
  end.

Definition runOps (ops : list RegistryOp) (m : ConnectionManager) : ConnectionManager :=
  foldl applyOp m ops.

(** Invariant R1: every [userId ↦ sid] entry points at a registered
    session whose user carries that id. *)
Definition R1 (m : ConnectionManager) : Prop :=
  ∀ userId sid, userSockets m !! userId = Some sid →
    ∃ c u, connections m !! sid = Some c ∧ user c = Some u ∧ User.id u = userId.

(** No user-map key is the empty string. *)
Definition keysNonEmpty (m : ConnectionManager) : Prop :=
  ∀ userId sid, userSockets m !! userId = Some sid → userId ≠ "".

(** Side conditions under which each operation keeps R1:
    - a session is added under an id that is not registered yet;
    - a session is authenticated with a non-empty user id, and every entry
      of the user map that already points at that session is keyed by that
      same user id. *)
Definition opOk (m : ConnectionManager) (op : RegistryOp) : Prop :=
  match op with
  | OpAdd c => connections m !! getSocketId c = None
  | OpAuthenticate socketId u =>
      User.id u ≠ "" ∧
      map_Forall (λ userId sid, sid = socketId → userId = User.id u) (userSockets m)
  | OpRemove _ => True
  end.

Fixpoint opsOk (m : ConnectionManager) (ops : list RegistryOp) : Prop :=
  match ops with
  | [] => True
  | op :: rest => opOk m op ∧ opsOk (applyOp m op) rest
  end.

#[global] Instance opOk_dec (m : ConnectionManager) (op : RegistryOp) : Decision (opOk m op).
Proof. destruct op; simpl; apply _. Defined.

#[global] Instance opsOk_dec (m : ConnectionManager) (ops : list RegistryOp) :
  Decision (opsOk m ops).
Proof. revert m. induction ops; simpl; intros; apply _. Defined.

(** ** Wire events emitted by the server (SocketEvent + EventPayloads) *)

Inductive Payload : Type :=
| AUTHENTICATED (userId socketId : string)
| AUTH_ERROR (message : string)
| ONLINE_STATUS (statuses : gmap string bool)
| USER_ONLINE (userId : string)
| USER_OFFLINE (userId : string)
| RECEIVE_MESSAGE (from content : string) (timestamp : Z) (messageId : string)
                  (metadata : option Metadata)
| MESSAGE_DELIVERED (messageId : string)
| MESSAGE_ERROR (messageId : option string) (error : string)
| TYPING_START (from : string)
| TYPING_STOP (from : string).

(** What a handler asks of the transport: [socket.emit] to one session,
    [io.emit] to every session, [socket.disconnect()]. *)
Inductive Effect : Type :=
| Emit (socketId : string) (event : Payload)
| Broadcast (event : Payload)
| Disconnect (socketId : string).

(** Request payloads. *)
Record SendMessage : Type := mkSendMessage {
  to : string;
  content : string;
  metadata : option Metadata
}.

Inductive TypingKind : Type := Start | Stop.

Definition typingEvent (k : TypingKind) (from : string) : Payload :=
  match k with
  | Start => TYPING_START from
  | Stop => TYPING_STOP from
  end.

(** Outcome of awaiting the injected [authHandler(token)]:
    it resolves to a [User] or [null], or it rejects. *)
Inductive AuthOutcome : Type :=
| Resolved (user : option User.t)
| Rejected.

(** The state a handler runs against: the shared registry, the number of
    ids drawn from [randomUUID] so far, and the effects issued so far. *)
Record World : Type := mkWorld {
  manager : ConnectionManager;
  drawn : nat;
  wire : list Effect
}.

(** Handlers are written in a state monad over [World]. *)
Definition Handler (A : Type) : Type := World → A * World.

Definition ret {A} (a : A) : Handler A := λ w, (a, w).

Definition bind {A B} (h : Handler A) (k : A → Handler B) : Handler B :=
  λ w, let '(a, w') := h w in k a w'.

Notation "'let*' x ':=' h 'in' k" := (bind h (λ x, k))
  (at level 10, x name, h at level 100, k at level 200).
Notation "h ';;' k" := (bind h (λ _, k))
  (at level 100, k at level 200, right associativity).

Definition exec {A} (h : Handler A) (w : World) : World := (h w).2.

Definition registry : Handler ConnectionManager := λ w, (manager w, w).

Definition modifyRegistry (f : ConnectionManager → ConnectionManager) : Handler unit :=
  λ w, (tt, {| manager := f (manager w); drawn := drawn w; wire := wire w |}).

Definition perform (e : Effect) : Handler unit :=
  λ w, (tt, {| manager := manager w; drawn := drawn w; wire := wire w ++ [e] |}).

(** [socket.emit(event, data)] on the socket with the given id. *)
Definition socketEmit (socketId : string) (event : Payload) : Handler unit :=
  perform (Emit socketId event).

(** [Connection.emit]: forwards to the wrapped socket. *)
Definition emit (c : Connection) (event : Payload) : Handler unit :=
  socketEmit (socket c) event.

Definition socketDisconnect (socketId : string) : Handler unit :=
  perform (Disconnect socketId).

Section Plugins.

(** The stream of ids that successive [randomUUID()] calls return. *)
Variable uuid : nat → string.

Definition randomUUID : Handler string :=
  λ w, (uuid (drawn w), {| manager := manager w; drawn := S (drawn w); wire := wire w |}).

(** *** plugins/MessagePlugin.ts *)

(** The [send_message] listener attached to [socket]; [now] is the value
    [Date.now()] returns while it runs. *)
Definition onSendMessage (socket : string) (payload : SendMessage) (now : Z)
  : Handler unit :=
  let* cm := registry in
  match getConnection socket cm with
  | None => socketEmit socket (MESSAGE_ERROR None "Not authenticated")
  | Some connection =>
      if negb (isAuth connection)
      then socketEmit socket (MESSAGE_ERROR None "Not authenticated")
      else
        match getUserId connection with
        | None => socketEmit socket (MESSAGE_ERROR None "Invalid user")
        | Some fromUserId =>
            let recipientConnection := getConnectionByUserId (to payload) cm in
            let* messageId := randomUUID in
            match recipientConnection with
            | None =>
                socketEmit socket (MESSAGE_ERROR (Some messageId) "Recipient is offline")
            | Some recipientConnection =>
                emit recipientConnection
                  (RECEIVE_MESSAGE fromUserId (content payload) now messageId
                     (metadata payload)) ;;
                socketEmit socket (MESSAGE_DELIVERED messageId)
            end
        end
  end.

(** The [typing_start] and [typing_stop] listeners; they differ only in
    the event they forward. *)
Definition onTyping (k : TypingKind) (socket : string) (payload_to : string)
  : Handler unit :=
  let* cm := registry in
  match getConnection socket cm with
  | None => ret tt
  | Some connection =>
      if negb (isAuth connection) then ret tt
      else
        match getUserId connection with
        | None => ret tt
        | Some fromUserId =>
            match getConnectionByUserId payload_to cm with
            | Some recipientConnection =>
                emit recipientConnection (typingEvent k fromUserId)
            | None => ret tt
            end
        end
  end.

(** *** plugins/PresencePlugin.ts *)

Definition onGetOnlineStatus (socket : string) (userIds : list string) : Handler unit :=
  let* cm := registry in
  socketEmit socket (ONLINE_STATUS (getUsersOnlineStatus userIds cm)).

Definition broadcastUserOnline (userId : string) : Handler unit :=
  perform (Broadcast (USER_ONLINE userId)).

Definition broadcastUserOffline (userId : string) : Handler unit :=
  perform (Broadcast (USER_OFFLINE userId)).

(** *** plugins/AuthPlugin.ts *)

(** [user.socketId = socket.id; user.connectedAt = Date.now()] *)
Definition stamp (socket : string) (now : Z) (u : User.t) : User.t :=
  {| User.id := User.id u; User.socketId := socket; User.connectedAt := now;
     User.metadata := User.metadata u |}.

(** The [authenticate] listener, resumed with the outcome of
    [await this.authHandler(payload.token)]. *)
Definition onAuthenticate (authHandler : string → AuthOutcome) (socket : string)
    (token : string) (now : Z) : Handler unit :=
  match authHandler token with
  | Resolved None =>
      socketEmit socket (AUTH_ERROR "Invalid authentication token") ;;
      socketDisconnect socket
  | Resolved (Some u) =>
      let u' := stamp socket now u in
      modifyRegistry (authenticateConnection socket u') ;;
      socketEmit socket (AUTHENTICATED (User.id u') socket)
  | Rejected =>
      socketEmit socket (AUTH_ERROR "Authentication failed") ;;
      socketDisconnect socket
  end.

End Plugins.

(** ** core/SocketServer.ts: the listeners of [setupConnectionHandler] *)

(** [io.on('connection')]: the new socket is wrapped and registered. *)
Definition onConnection (socket : string) : Handler unit :=
  modifyRegistry (addConnection (newConnection socket)).

(** The socket's ['disconnect'] listener.  [connection] is the object the
    listener's closure captured, in its current state (its socket is the
    one that disconnected); [presence] tells whether a presence plugin is
    installed. *)
Definition onSocketDisconnect (presence : bool) (connection : Connection) : Handler unit :=
  let userId := getUserId connection in
  modifyRegistry (removeConnection (getSocketId connection)) ;;
  match userId with
  | Some userId => if presence then broadcastUserOffline userId else ret tt
  | None => ret tt
  end.

(** The socket's ['authenticated'] listener. *)
Definition onSocketAuthenticated (presence : bool) (connection : Connection) : Handler unit :=
  match getUserId connection with
  | Some userId => if presence then broadcastUserOnline userId else ret tt
  | None => ret tt
  end.

(** Connections produced by the documented operations: [new Connection]
    followed by any number of [authenticate] calls. *)
Definition builtConnection (socket_id : string) (users : list User.t) : Connection :=
  foldl (λ c u, authenticate u c) (newConnection socket_id) users.

End Server.

(** * Client *)

Module Client.

(** ** core/ConnectionManager.ts (client session state machine) *)

Inductive ConnectionState : Type :=
| DISCONNECTED
| CONNECTING
| CONNECTED
| AUTHENTICATED
| ERROR
| RECONNECTING.

#[global] Instance ConnectionState_eq_dec : EqDecision ConnectionState.
Proof. solve_decision. Defined.

(** A listener is a function object; only its identity matters here. *)
Definition Listener : Type := nat.

(** [notified] records every listener invocation, oldest first. *)
Record ConnectionManager : Type := mkConnectionManager {
  state : ConnectionState;
  listeners : list Listener;
  reconnectAttempts : Z;
  maxReconnectAttempts : Z;
  notified : list (Listener * ConnectionState)
}.

(** [new ConnectionManager(maxReconnectAttempts)] *)
Definition newConnectionManager (maxReconnectAttempts : Z) : ConnectionManager :=
  {| state := DISCONNECTED; listeners := []; reconnectAttempts := 0;
     maxReconnectAttempts := maxReconnectAttempts; notified := [] |}.

Definition getState (m : ConnectionManager) : ConnectionState := state m.

(** Each listener is called with the current state; what a listener throws
    is caught and logged, so the loop always reaches the next one. *)
Definition notifyListeners (m : ConnectionManager) : ConnectionManager :=
  {| state := state m; listeners := listeners m;
     reconnectAttempts := reconnectAttempts m;
     maxReconnectAttempts := maxReconnectAttempts m;
     notified := notified m ++ map (λ listener, (listener, state m)) (listeners m) |}.

Definition setState (s : ConnectionState) (m : ConnectionManager) : ConnectionManager :=
  if decide (state m = s) then m
  else notifyListeners
         {| state := s; listeners := listeners m;
            reconnectAttempts := reconnectAttempts m;
            maxReconnectAttempts := maxReconnectAttempts m;
            notified := notified m |}.

Definition isConnected (m : ConnectionManager) : bool :=
  bool_decide (state m = CONNECTED) || bool_decide (state m = AUTHENTICATED).

Definition isAuthenticated (m : ConnectionManager) : bool :=
  bool_decide (state m = AUTHENTICATED).

(** [this.listeners.add(listener)]: a Set keeps insertion order and holds a
    listener at most once. *)
Definition onStateChange (listener : Listener) (m : ConnectionManager) : ConnectionManager :=
  {| state := state m;
     listeners := if decide (listener ∈ listeners m) then listeners m
                  else listeners m ++ [listener];
     reconnectAttempts := reconnectAttempts m;
     maxReconnectAttempts := maxReconnectAttempts m;
     notified := notified m |}.

(** The closure returned by [onStateChange]. *)
Definition unsubscribe (listener : Listener) (m : ConnectionManager) : ConnectionManager :=
  {| state := state m;
     listeners := filter (λ l, l ≠ listener) (listeners m);
     reconnectAttempts := reconnectAttempts m;
     maxReconnectAttempts := maxReconnectAttempts m;
     notified := notified m |}.

Definition incrementReconnectAttempts (m : ConnectionManager) : Z * ConnectionManager :=
  let m' := {| state := state m; listeners := listeners m;
               reconnectAttempts := reconnectAttempts m + 1;
               maxReconnectAttempts := maxReconnectAttempts m;
               notified := notified m |} in
  (reconnectAttempts m', m').

Definition resetReconnectAttempts (m : ConnectionManager) : ConnectionManager :=
  {| state := state m; listeners := listeners m; reconnectAttempts := 0;
     maxReconnectAttempts := maxReconnectAttempts m; notified := notified m |}.

Definition getReconnectAttempts (m : ConnectionManager) : Z := reconnectAttempts m.

Definition canReconnect (m : ConnectionManager) : bool :=
  bool_decide (reconnectAttempts m < maxReconnectAttempts m)%Z.

Definition reset (m : ConnectionManager) : ConnectionManager :=
  {| state := DISCONNECTED; listeners := []; reconnectAttempts := 0;
     maxReconnectAttempts := maxReconnectAttempts m; notified := notified m |}.

(** The invocations of one listener, oldest first. *)
Definition callsTo (listener : Listener) (m : ConnectionManager)
  : list (Listener * ConnectionState) :=
  filter (λ call, call.1 = listener) (notified m).

(** A sequence of [setState] calls, first call first. *)
Definition setStates (ss : list ConnectionState) (m : ConnectionManager) : ConnectionManager :=
  foldl (λ m s, setState s m) m ss.

(** The values of a call sequence that differ from their predecessor,
    [prev] being the value before the first call. *)
Fixpoint distinctConsecutive (prev : ConnectionState) (ss : list ConnectionState)
  : list ConnectionState :=
  match ss with
  | [] => []
  | s :: rest =>
      if decide (s = prev) then distinctConsecutive s rest
      else s :: distinctConsecutive s rest
  end.

(** ** core/SocketClient.ts (client session orchestrator) *)

Record ClientConfig : Type := mkClientConfig {
  url : string;
  autoConnect : bool;
  reconnection : bool;
  reconnectionAttempts : Z;
  reconnectionDelay : Z;
  timeout : Z;
  transports : list string
}.

(** The defaults the constructor fills in. *)
Definition defaultConfig (url : string) : ClientConfig :=
  {| url := url; autoConnect := true; reconnection := true;
     reconnectionAttempts := 5; reconnectionDelay := 1000; timeout := 20000;
     transports := ["websocket"; "polling"] |}.

(** The transport socket, as far as the orchestrator reads it. *)
Record Socket : Type := mkSocket { connected : bool }.

(** A [setTimeout] call of the reconnection loop. *)
Record Timer : Type := mkTimer { attempt : Z; delay : Z }.

(** What the client republishes through its EventEmitter. *)
Inductive Published : Type :=
| PubConnect
| PubDisconnect (reason : string)
| PubError
| PubAuthenticated (userId : string)
| PubAuthError (message : string).

(** Requests the client emits to the server. *)
Inductive Request : Type :=
| ReqAuthenticate (token : string)
| ReqSendMessage (to content : string) (metadata : option Metadata)
| ReqGetOnlineStatus (userIds : list string)
| ReqTypingStart (to : string)
| ReqTypingStop (to : string).

(** [reconnectTimer] is the stored timer handle and [armed] tells whether
    that timer is still pending; [scheduled] records every [setTimeout]
    call, oldest first. *)
Record SocketClient : Type := mkSocketClient {
  config : ClientConfig;
  socket : option Socket;
  connectionManager : ConnectionManager;
  userId : option string;
  reconnectTimer : option Timer;
  armed : bool;
  published : list Published;
  requests : list Request;
  scheduled : list Timer
}.

Definition withManager (f : ConnectionManager → ConnectionManager) (c : SocketClient)
  : SocketClient :=
  {| config := config c; socket := socket c;
     connectionManager := f (connectionManager c); userId := userId c;
     reconnectTimer := reconnectTimer c; armed := armed c;
     published := published c; requests := requests c; scheduled := scheduled c |}.

Definition withSocket (s : option Socket) (c : SocketClient) : SocketClient :=
  {| config := config c; socket := s;
     connectionManager := connectionManager c; userId := userId c;
     reconnectTimer := reconnectTimer c; armed := armed c;
     published := published c; requests := requests c; scheduled := scheduled c |}.

Definition withUserId (u : option string) (c : SocketClient) : SocketClient :=
  {| config := config c; socket := socket c;
     connectionManager := connectionManager c; userId := u;
     reconnectTimer := reconnectTimer c; armed := armed c;
     published := published c; requests := requests c; scheduled := scheduled c |}.

(** [this.eventEmitter.emit(...)] *)
Definition publish (p : Published) (c : SocketClient) : SocketClient :=
  {| config := config c; socket := socket c;
     connectionManager := connectionManager c; userId := userId c;
     reconnectTimer := reconnectTimer c; armed := armed c;
     published := published c ++ [p]; requests := requests c;
     scheduled := scheduled c |}.

(** [this.socket.emit(...)] *)
Definition send (r : Request) (c : SocketClient) : SocketClient :=
  {| config := config c; socket := socket c;
     connectionManager := connectionManager c; userId := userId c;
     reconnectTimer := reconnectTimer c; armed := armed c;
     published := published c; requests := requests c ++ [r];
     scheduled := scheduled c |}.

(** The transport flips [socket.connected] before it runs the listeners. *)
Definition setConnected (b : bool) (c : SocketClient) : SocketClient :=
  withSocket (match socket c with
              | Some _ => Some {| connected := b |}
              | None => None
              end) c.

(** [this.socket?.connected] *)
Definition socketConnected (c : SocketClient) : bool :=
  match socket c with
  | Some s => connected s
  | None => false
  end.

Definition connect (c : SocketClient) : SocketClient :=
  if socketConnected c then c
  else withSocket (Some {| connected := false |}) (withManager (setState CONNECTING) c).

Definition shouldReconnect (reason : string) (c : SocketClient) : bool :=
  bool_decide (reason ≠ "io client disconnect") && canReconnect (connectionManager c).

(** Clears the stored timer if there is one, increments the attempt
    counter, and arms a timer of [reconnectionDelay * attempt] ms. *)
Definition scheduleReconnect (c : SocketClient) : SocketClient :=
  let '(attempt, m) := incrementReconnectAttempts (connectionManager c) in
  let delay := (reconnectionDelay (config c) * attempt)%Z in
  let t := {| attempt := attempt; delay := delay |} in
  {| config := config c; socket := socket c;
     connectionManager := setState RECONNECTING m; userId := userId c;
     reconnectTimer := Some t; armed := true;
     published := published c; requests := requests c;
     scheduled := scheduled c ++ [t] |}.

(** The listeners [setupSocketListeners] installs that touch the session. *)
Definition onConnect (c : SocketClient) : SocketClient :=
  publish PubConnect
    (withManager resetReconnectAttempts
       (withManager (setState CONNECTED) (setConnected true c))).

Definition onDisconnect (reason : string) (c : SocketClient) : SocketClient :=
  let c1 := publish (PubDisconnect reason)
              (withUserId None
                 (withManager (setState DISCONNECTED) (setConnected false c))) in
  if reconnection (config c1) && shouldReconnect reason c1
  then scheduleReconnect c1
  else c1.

Definition onConnectError (c : SocketClient) : SocketClient :=
  let c1 := publish PubError (withManager (setState ERROR) c) in
  if reconnection (config c1) then scheduleReconnect c1 else c1.

Definition onAuthenticated (userId : string) (c : SocketClient) : SocketClient :=
  publish (PubAuthenticated userId)
    (withManager (setState AUTHENTICATED) (withUserId (Some userId) c)).

Definition onAuthError (message : string) (c : SocketClient) : SocketClient :=
  publish (PubAuthError message) c.

(** The timer callback: [this.connect()]. *)
Definition onTimer (c : SocketClient) : SocketClient :=
  if armed c then
    connect
      {| config := config c; socket := socket c;
         connectionManager := connectionManager c; userId := userId c;
         reconnectTimer := reconnectTimer c; armed := false;
         published := published c; requests := requests c;
         scheduled := scheduled c |}
  else c.

(** [new SocketClient(config)] *)
Definition newSocketClient (cfg : ClientConfig) : SocketClient :=
  let c := {| config := cfg; socket := None;
              connectionManager := newConnectionManager (reconnectionAttempts cfg);
              userId := None; reconnectTimer := None; armed := false;
              published := []; requests := []; scheduled := [] |} in
  if autoConnect cfg then connect c else c.

(** Operations that throw return [None]. *)
Definition authenticate (token : string) (c : SocketClient) : option SocketClient :=
  if socketConnected c then Some (send (ReqAuthenticate token) c) else None.

Definition sendMessage (to content : string) (metadata : option Metadata)
    (c : SocketClient) : option SocketClient :=
  if isAuthenticated (connectionManager c)
  then Some (send (ReqSendMessage to content metadata) c)
  else None.

Definition getOnlineStatus (userIds : list string) (c : SocketClient)
  : option SocketClient :=
  if isConnected (connectionManager c)
  then Some (send (ReqGetOnlineStatus userIds) c)
  else None.

Definition startTyping (to : string) (c : SocketClient) : SocketClient :=
  if isAuthenticated (connectionManager c) then send (ReqTypingStart to) c else c.

Definition stopTyping (to : string) (c : SocketClient) : SocketClient :=
  if isAuthenticated (connectionManager c) then send (ReqTypingStop to) c else c.

Definition disconnect (c : SocketClient) : SocketClient :=
  {| config := config c; socket := None;
     connectionManager := reset (connectionManager c); userId := None;
     reconnectTimer := None; armed := false;
     published := published c; requests := requests c; scheduled := scheduled c |}.

(** Events delivered to the client by the transport and the timer. *)
Inductive TransportEvent : Type :=
| EvConnect
| EvDisconnect (reason : string)
| EvConnectError
| EvAuthenticated (userId : string)
| EvAuthError (message : string)
| EvTimer.

Definition handle (c : SocketClient) (e : TransportEvent) : SocketClient :=
  match e with
  | EvConnect => onConnect c
  | EvDisconnect reason => onDisconnect reason c
  | EvConnectError => onConnectError c
  | EvAuthenticated userId => onAuthenticated userId c
  | EvAuthError message => onAuthError message c
  | EvTimer => onTimer c
  end.

Definition run (es : list TransportEvent) (c : SocketClient) : SocketClient :=
  foldl handle c es.

(** Every timer on record was armed for base delay × attempt number. *)
Definition linearBackoff (c : SocketClient) : Prop :=
  Forall (λ t, delay t = (reconnectionDelay (config c) * attempt t)%Z) (scheduled c).

(** A failed connection attempt followed by the retry timer firing. *)
Definition failedAttempt : list TransportEvent := [EvConnectError; EvTimer].

(** A client with the default configuration whose first connection and
    [n] retries have all failed. *)
Definition afterFailures (n : nat) : SocketClient :=
  run (concat (replicate n failedAttempt))
    (newSocketClient (defaultConfig "http://localhost:3000")).

End Client.

(** * Client event dispatcher *)

Module Emitter.

(** ** core/EventEmitter.ts *)

(** A handler is a function object; only its identity matters here.  The
    arguments of an emit are carried through untouched. *)
Definition EventHandler : Type := nat.
Definition Args : Type := list string.

(** [called] records every handler invocation, oldest first. *)
Record EventEmitter : Type := mkEventEmitter {
  events : gmap string (list EventHandler);
  called : list (EventHandler * string * Args)
}.

(** [new EventEmitter()] *)
Definition newEventEmitter : EventEmitter := {| events := ∅; called := [] |}.

(** Creates the bucket when the event has none, then pushes the handler. *)
Definition on (event : string) (handler : EventHandler) (e : EventEmitter) : EventEmitter :=
  let events1 :=
    match events e !! event with
    | Some _ => events e
    | None => <[event := []]> (events e)
    end in
  match events1 !! event with
  | Some handlers =>
      {| events := <[event := handlers ++ [handler]]> events1; called := called e |}
  | None => e
  end.

(** [handlers.indexOf(handler)] followed by [handlers.splice(index, 1)]:
    the first occurrence goes, if there is one. *)
Fixpoint removeFirst (handler : EventHandler) (handlers : list EventHandler)
  : list EventHandler :=
  match handlers with
  | [] => []
  | h :: rest => if decide (h = handler) then rest else h :: removeFirst handler rest
  end.

Definition off (event : string) (handler : EventHandler) (e : EventEmitter) : EventEmitter :=
  match events e !! event with
  | None => e
  | Some handlers =>
      let handlers' := removeFirst handler handlers in
      {| events := if decide (length handlers' = 0) then delete event (events e)
                   else <[event := handlers']> (events e);
         called := called e |}
  end.

(** [removeAllListeners(event?)]: an omitted or falsy event name clears
    every bucket. *)
Definition removeAllListeners (event : option string) (e : EventEmitter) : EventEmitter :=
  match event with
  | Some name =>
      if truthy name then {| events := delete name (events e); called := called e |}
      else {| events := ∅; called := called e |}
  | None => {| events := ∅; called := called e |}
  end.

(** The invocations of one handler for one event, oldest first. *)
Definition callsOf (event : string) (handler : EventHandler) (e : EventEmitter)
  : list (EventHandler * string * Args) :=
  filter (λ call, call.1.1 = handler ∧ call.1.2 = event) (called e).

(** How many times a handler is registered for an event. *)
Definition registrations (event : string) (handler : EventHandler) (e : EventEmitter) : nat :=
  length (filter (λ h, h = handler) (default [] (events e !! event))).

(** *** emit and handlers that call back into the emitter *)

(** What a handler may do to the emitter while it is being called. *)
Inductive Reentry : Type :=
| ReOn (event : string) (handler : EventHandler)
| ReOff (event : string) (handler : EventHandler)
| ReRemoveAll (event : option string).

(** The behaviour of the handlers: the calls a handler makes on the
    emitter when it is invoked for an event with some arguments, given the
    emitter as it is at that moment.  Calls made before a handler throws
    count like any others.  A handler that emits from inside a handler is
    not part of this model. *)
Definition Behaviour : Type := EventHandler → string → Args → EventEmitter → list Reentry.

(** The state of one [handlers.forEach]: the emitter, the array object the
    loop walks, and whether that array is still the bucket the table holds
    for the event ([off] deletes an emptied bucket and
    [removeAllListeners] drops buckets, after which [on] creates a new
    array and the loop keeps walking the old one). *)
Record Walk : Type := mkWalk {
  table : EventEmitter;
  bucket : list EventHandler;
  attached : bool
}.

(** Does [removeAllListeners(target)] drop the bucket of [event]? *)
Definition clears (target : option string) (event : string) : bool :=
  match target with
  | Some name => if truthy name then bool_decide (name = event) else true
  | None => true
  end.

(** One call made by a handler during the walk for [event]: it acts on the
    table, and on the walked array when that array is the bucket it
    mutates. *)
Definition reenter (event : string) (w : Walk) (r : Reentry) : Walk :=
  match r with
  | ReOn ev handler =>
      {| table := on ev handler (table w);
         bucket := if attached w && bool_decide (ev = event)
                   then bucket w ++ [handler] else bucket w;
         attached := attached w |}
  | ReOff ev handler =>
      if attached w && bool_decide (ev = event) then
        let bucket' := removeFirst handler (bucket w) in
        {| table := off ev handler (table w);
           bucket := bucket';
           attached := if decide (length bucket' = 0) then false else true |}
      else
        {| table := off ev handler (table w); bucket := bucket w; attached := attached w |}
  | ReRemoveAll target =>
      {| table := removeAllListeners target (table w);
         bucket := bucket w;
         attached := attached w && negb (clears target event) |}
  end.

Section Dispatch.

Variable behaviour : Behaviour.

(** [Array.prototype.forEach] over the live array: the length is read
    once, and index [k] is visited only if the array still has it when the
    loop gets there.  Each visited handler is called with the arguments;
    what it throws is caught and logged, so the loop goes on. *)
Fixpoint forEach (event : string) (args : Args) (k n : nat) (w : Walk) : Walk :=
  match n with
  | O => w
  | S n' =>
      match bucket w !! k with
      | Some handler =>
          let w1 := {| table := {| events := events (table w);
                                   called := called (table w) ++ [(handler, event, args)] |};
                       bucket := bucket w;
                       attached := attached w |} in
          forEach event args (S k) n'
            (foldl (reenter event) w1 (behaviour handler event args (table w)))
      | None => forEach event args (S k) n' w
      end
  end.

Definition emit (event : string) (args : Args) (e : EventEmitter) : EventEmitter :=
  match events e !! event with
  | None => e
  | Some handlers =>
      table (forEach event args 0 (length handlers)
               {| table := e; bucket := handlers; attached := true |})
  end.

Inductive EmitterOp : Type :=
| OpOn (event : string) (handler : EventHandler)
| OpOff (event : string) (handler : EventHandler)
| OpEmit (event : string) (args : Args)
| OpRemoveAll (event : option string).

Definition applyEmitterOp (e : EventEmitter) (op : EmitterOp) : EventEmitter :=
  match op with
  | OpOn event handler => on event handler e
  | OpOff event handler => off event handler e
  | OpEmit event args => emit event args e
  | OpRemoveAll event => removeAllListeners event e
  end.

Definition runEmitterOps (ops : list EmitterOp) (e : EventEmitter) : EventEmitter :=
  foldl applyEmitterOp e ops.

End Dispatch.

(** Handlers that never call back into the emitter. *)
Definition inert : Behaviour := λ _ _ _ _, [].

(** Handler 1 unsubscribes itself the first time it is called (a "once"
    handler); every other handler leaves the emitter alone. *)
Definition once1 : Behaviour :=
  λ handler event _ _, if decide (handler = 1) then [ReOff event handler] else [].

(** The walked array is the table's bucket for the event while the walk is
    attached. *)
Definition walkAttached (event : string) (w : Walk) : Prop :=
  attached w = true → events (table w) !! event = Some (bucket w).

(** No bucket is an empty array. *)
Definition noEmptyBucket (e : EventEmitter) : Prop :=
  ∀ event handlers, events e !! event = Some handlers → handlers ≠ [].

End Emitter.

(** * Sample data used by the concrete instances below *)

Module Samples.
Import Server.

Definition alice : User.t :=
  {| User.id := "alice"; User.socketId := ""; User.connectedAt := 0; User.metadata := None |}.

Definition bob : User.t :=
  {| User.id := "bob"; User.socketId := ""; User.connectedAt := 0; User.metadata := None |}.

(** A user whose id is the empty string (a validator may return one:
    [id] is only typed [string]). *)
Definition nameless : User.t :=
  {| User.id := ""; User.socketId := ""; User.connectedAt := 0; User.metadata := None |}.

(** Two sessions connected, nobody authenticated. *)
Definition twoSessions : ConnectionManager :=
  runOps [OpAdd (newConnection "s1"); OpAdd (newConnection "s2")] newConnectionManager.

(** A session authenticated twice, under two different user ids. *)
Definition reauthenticated : list RegistryOp :=
  [OpAdd (newConnection "s1"); OpAuthenticate "s1" alice; OpAuthenticate "s1" bob].


(** The world before any handler has run on a given registry. *)
Definition idle (m : ConnectionManager) : World :=
  {| manager := m; drawn := 0; wire := [] |}.

(** Session s1 authenticated under the empty user id, s2 as bob. *)
Definition namelessAndBob : World :=
  idle (runOps [OpAdd (newConnection "s1"); OpAuthenticate "s1" nameless;
                OpAdd (newConnection "s2"); OpAuthenticate "s2" bob]
          newConnectionManager).

(** Session s1 authenticated as alice, s2 as bob. *)
Definition aliceAndBob : World :=
  idle (runOps [OpAdd (newConnection "s1"); OpAuthenticate "s1" alice;
                OpAdd (newConnection "s2"); OpAuthenticate "s2" bob]
          newConnectionManager).

Definition hi : SendMessage := {| to := "bob"; content := "hi"; metadata := None |}.

(** Ids drawn in sequence: "0", "1", "2", ... *)
Definition counterUUID (n : nat) : string := pretty n.

(** A validator that accepts every token as the user with the empty id. *)
Definition acceptsNameless (token : string) : AuthOutcome := Resolved (Some nameless).

End Samples.

(** Every session is stored under its own socket id. *)
Definition keyedBySocketId (m : Server.ConnectionManager) : Prop :=
  ∀ sid c, Server.connections m !! sid = Some c → Server.getSocketId c = sid.

Module MoreSamples.
Import Server Samples.

(** Session s1 authenticates as alice, then session s2 as bob. *)
Definition aliceThenBob : list RegistryOp :=
  [OpAdd (newConnection "s1"); OpAuthenticate "s1" alice;
   OpAdd (newConnection "s2"); OpAuthenticate "s2" bob].

(** A user whose id is the property name ["__proto__"]. *)
Definition proto : User.t :=
  {| User.id := "__proto__"; User.socketId := ""; User.connectedAt := 0;
     User.metadata := None |}.

(** Session s1 authenticated as that user, s2 as alice. *)
Definition protoAndAlice : ConnectionManager :=
  runOps [OpAdd (newConnection "s1"); OpAuthenticate "s1" proto;
          OpAdd (newConnection "s2"); OpAuthenticate "s2" alice]
    newConnectionManager.

End MoreSamples.

(** [n] calls of [incrementReconnectAttempts] in a row. *)
Fixpoint increments (n : nat) (m : Client.ConnectionManager) : Client.ConnectionManager :=
  match n with
  | O => m
  | S n => (Client.incrementReconnectAttempts (increments n m)).2
  end.

(** The attempt counter is not negative and no timer on record was armed
    for an attempt number outside 1..max. *)
Definition capped (c : Client.SocketClient) : Prop :=
  (0 ≤ Client.reconnectAttempts (Client.connectionManager c))%Z ∧
  Forall (λ t, (1 ≤ Client.attempt t
                ≤ Client.maxReconnectAttempts (Client.connectionManager c))%Z)
    (Client.scheduled c).

(** * Properties of the server registry *)

Section Registry.
Import Server.

Lemma R1_new : R1 newConnectionManager.
Proof. intros userId sid H. simpl in H. by rewrite lookup_empty in H. Qed.

Lemma keysNonEmpty_new : keysNonEmpty newConnectionManager.
Proof. intros userId sid H. simpl in H. by rewrite lookup_empty in H. Qed.

Lemma getUserId_Some (c : Connection) (userId : string) :
  getUserId c = Some userId ↔ ∃ u, user c = Some u ∧ User.id u = userId ∧ userId ≠ "".
Proof.
  unfold getUserId, truthy. split.
  - destruct (user c) as [u|]; [|done].
    case_decide; [done|]. intros [= <-]. by exists u.
  - intros (u & -> & <- & Hne). by case_decide.
Qed.

Lemma getUserId_None (c : Connection) :
  getUserId c = None ↔ user c = None ∨ ∃ u, user c = Some u ∧ User.id u = "".
Proof.
  unfold getUserId, truthy. destruct (user c) as [u|].
  - case_decide; split; try done.
    + intros _. right. by exists u.
    + intros [|(u' & [= <-] & ?)]; done.
  - split; [by left|done].
Qed.

Lemma authenticateConnection_Some (socketId : string) (u : User.t)
    (m : ConnectionManager) (c : Connection) :
  connections m !! socketId = Some c →
  authenticateConnection socketId u m =
    {| connections := <[socketId := authenticate u c]> (connections m);
       userSockets := <[User.id u := socketId]> (userSockets m) |}.
Proof. intros H. unfold authenticateConnection. by rewrite H. Qed.

Lemma removeConnection_Some (socketId : string) (m : ConnectionManager) (c : Connection) :
  connections m !! socketId = Some c →
  removeConnection socketId m =
    {| connections := delete socketId (connections m);
       userSockets := match getUserId c with
                      | Some userId => delete userId (userSockets m)
                      | None => userSockets m
                      end |}.
Proof. intros H. unfold removeConnection. by rewrite H. Qed.

(** Each guarded operation keeps R1 together with non-empty keys. *)
Lemma applyOp_preserves (m : ConnectionManager) (op : RegistryOp) :
  R1 m → keysNonEmpty m → opOk m op →
  R1 (applyOp m op) ∧ keysNonEmpty (applyOp m op).
Proof.
  intros HR HK Hok. destruct op as [c|socketId u|socketId]; simpl in *.
  - split; [|done].
    intros userId sid Hu. simpl in *.
    destruct (HR _ _ Hu) as (c0 & u0 & Hc0 & Hu0 & Hid).
    exists c0, u0. split; [|done].
    rewrite lookup_insert_ne; [done|]. intros <-. congruence.
  - destruct Hok as [Hne Hsame]. unfold authenticateConnection.
    destruct (connections m !! socketId) as [c|] eqn:Hc; [|done].
    split.
    + intros userId sid. simpl.
      destruct (decide (User.id u = userId)) as [<-|Hdiff].
      * rewrite lookup_insert_eq. intros [= <-].
        exists (authenticate u c), u. by rewrite lookup_insert_eq.
      * rewrite lookup_insert_ne; [|done]. intros Hu.
        destruct (HR _ _ Hu) as (c0 & u0 & Hc0 & Hu0 & Hid).
        destruct (decide (socketId = sid)) as [<-|Hsid].
        -- by specialize (Hsame _ _ Hu eq_refl).
        -- exists c0, u0. by rewrite lookup_insert_ne.
    + intros userId sid. simpl.
      destruct (decide (User.id u = userId)) as [<-|Hdiff]; [done|].
      rewrite lookup_insert_ne; [|done]. apply HK.
  - unfold removeConnection.
    destruct (connections m !! socketId) as [c|] eqn:Hc; [|done].
    assert (Hsub : ∀ userId sid,
      match getUserId c with
      | Some uid => delete uid (userSockets m)
      | None => userSockets m
      end !! userId = Some sid →
      userSockets m !! userId = Some sid ∧ getUserId c ≠ Some userId).
    { intros userId sid. destruct (getUserId c) as [uid|]; [|done].
      rewrite lookup_delete_Some. intros [? ?]. split; congruence. }
    split.
    + intros userId sid Hu. simpl in Hu. apply Hsub in Hu as [Hu Hnot].
      destruct (HR _ _ Hu) as (c0 & u0 & Hc0 & Hu0 & Hid).
      exists c0, u0. split; [|done]. simpl.
      rewrite lookup_delete_ne; [done|]. intros <-.
      apply Hnot. apply getUserId_Some. exists u0.
      assert (c0 = c) as -> by congruence.
      split; [done|]. split; [done|]. by eapply HK.
    + intros userId sid Hu. simpl in Hu. apply Hsub in Hu as [Hu _]. by eapply HK.
Qed.

Lemma runOps_preserves (ops : list RegistryOp) (m : ConnectionManager) :
  R1 m → keysNonEmpty m → opsOk m ops →
  R1 (runOps ops m) ∧ keysNonEmpty (runOps ops m).
Proof.
  revert m. induction ops as [|op ops IH]; intros m HR HK Hok; [done|].
  destruct Hok as [Hop Hrest].
  destruct (applyOp_preserves m op HR HK Hop) as [HR' HK'].
  by apply IH.
Qed.

End Registry.

Section RegistryClaims.
Import Server Samples.




(** C5 (as amended): when sessions A ≠ B are both registered and u has a
    non-empty id, authenticating A as u, then B as u, then removing A
    deletes the user-map entry of u: isUserOnline is false and
    getConnectionByUserId is undefined, although B is still registered and
    authenticated as u. *)
Theorem removal_drops_displaced_user (m : ConnectionManager) (A B : string) (u : User.t) :
  A ≠ B →
  is_Some (getConnection A m) →
  is_Some (getConnection B m) →
  User.id u ≠ "" →
  let m' := removeConnection A
              (authenticateConnection B u (authenticateConnection A u m)) in
  isUserOnline (User.id u) m' = false ∧
  getConnectionByUserId (User.id u) m' = None ∧
  ∃ c, getConnection B m' = Some c ∧ isAuth c = true ∧ getUser c = Some u.
Proof.
  intros HAB [cA HA] [cB HB] Hne m'. unfold getConnection in HA, HB |- *.
  assert (Hm' : m' =
    {| connections := delete A (<[B := authenticate u cB]>
                        (<[A := authenticate u cA]> (connections m)));
       userSockets := delete (User.id u)
                        (<[User.id u := B]> (<[User.id u := A]> (userSockets m))) |}).
  { subst m'. rewrite (authenticateConnection_Some A u m cA HA).
    rewrite (authenticateConnection_Some B u _ cB)
      by (simpl; by rewrite lookup_insert_ne).
    rewrite (removeConnection_Some A _ (authenticate u cA))
      by (simpl; by rewrite lookup_insert_ne, lookup_insert_eq).
    replace (getUserId (authenticate u cA)) with (Some (User.id u)); [done|].
    symmetry. apply getUserId_Some. by exists u. }
  rewrite Hm'. unfold isUserOnline, getConnectionByUserId. simpl.
  rewrite lookup_delete_eq. split; [|split; [done|]].
  - apply bool_decide_eq_false. by intros [? ?].
  - exists (authenticate u cB). by rewrite lookup_delete_ne, lookup_insert_eq.
Qed.

Lemma removal_drops_displaced_user_witness :
  let m' := removeConnection "s1"
              (authenticateConnection "s2" alice
                 (authenticateConnection "s1" alice twoSessions)) in
  isUserOnline "alice" m' = false ∧
  getConnectionByUserId "alice" m' = None ∧
  ∃ c, getConnection "s2" m' = Some c ∧ isAuth c = true ∧ getUser c = Some alice.
Proof.
  apply (removal_drops_displaced_user twoSessions "s1" "s2" alice).
  - discriminate.
  - vm_compute. eauto.
  - vm_compute. eauto.
  - discriminate.
Defined.

(** C5 (as stated) fails for the empty user id: removeConnection reads the
    removed session's id through getUserId, which turns "" into null, so
    the entry survives and the user still counts as online. *)
Lemma removal_keeps_empty_user_id :
  let m' := removeConnection "s1"
              (authenticateConnection "s2" nameless
                 (authenticateConnection "s1" nameless twoSessions)) in
  "s1" ≠ "s2" ∧
  is_Some (getConnection "s1" twoSessions) ∧
  is_Some (getConnection "s2" twoSessions) ∧
  isUserOnline (User.id nameless) m' = true ∧
  is_Some (getConnectionByUserId (User.id nameless) m').
Proof.
  repeat split; try discriminate; vm_compute; eauto.
Qed.

Lemma getUsersOnlineStatus_lookup_aux (m : ConnectionManager) (userIds : list string)
    (acc : gmap string bool) (k : string) :
  foldl (λ statuses userId, assignProperty userId (isUserOnline userId m) statuses)
    acc userIds !! k
  = if decide (k ∈ userIds ∧ k ≠ "__proto__") then Some (isUserOnline k m) else acc !! k.
Proof.
  revert acc. induction userIds as [|x xs IH]; intros acc; cbn [foldl].
  - rewrite decide_False; [done|]. intros [H _]. by apply not_elem_of_nil in H.
  - rewrite IH. destruct (decide (k ∈ xs ∧ k ≠ "__proto__")) as [[Hin Hk]|Hnot].
    + rewrite decide_True; [done|]. split; [by right|done].
    + unfold assignProperty. destruct (decide (k = x)) as [->|Hkx].
      * destruct (decide (x = "__proto__")) as [Hx|Hx].
        -- rewrite decide_False; [done|]. by intros [_ ?].
        -- rewrite decide_True; [|split; [by left|done]]. by rewrite lookup_insert_eq.
      * assert (Hout : ¬ (k ∈ x :: xs ∧ k ≠ "__proto__")).
        { intros [Hin' ?]. apply elem_of_cons in Hin' as [?|?]; [done|]. by apply Hnot. }
        destruct (decide (x = "__proto__")); rewrite decide_False by done; [done|].
        by rewrite lookup_insert_ne.
Qed.

Lemma getUsersOnlineStatus_lookup (m : ConnectionManager) (userIds : list string)
    (k : string) :
  getUsersOnlineStatus userIds m !! k
  = if decide (k ∈ userIds ∧ k ≠ "__proto__") then Some (isUserOnline k m) else None.
Proof.
  unfold getUsersOnlineStatus. rewrite getUsersOnlineStatus_lookup_aux.
  by rewrite lookup_empty.
Qed.

(** C9 (the code departs from it): the batch status is built by assigning
    properties on a plain object, so the requested id "__proto__" never
    becomes a key.  The keys of the result are the requested ids other than
    "__proto__"; each of those maps to true exactly when the user map has an
    entry for it and to false otherwise; permuting the request does not
    change the result.  With the user "__proto__" online, a request for
    that id alone returns the empty object, and a request for it together
    with alice reports alice only. *)
Theorem getUsersOnlineStatus_drops_proto (m : ConnectionManager) (userIds : list string) :
  dom (getUsersOnlineStatus userIds m) = list_to_set userIds ∖ {["__proto__"]} ∧
  (∀ userId, userId ∈ userIds → userId ≠ "__proto__" →
     (getUsersOnlineStatus userIds m !! userId = Some true
        ↔ is_Some (userSockets m !! userId)) ∧
     (getUsersOnlineStatus userIds m !! userId = Some false
        ↔ userSockets m !! userId = None)) ∧
  (∀ userIds', userIds' ≡ₚ userIds →
     getUsersOnlineStatus userIds' m = getUsersOnlineStatus userIds m) ∧
  isUserOnline "__proto__" MoreSamples.protoAndAlice = true ∧
  getUsersOnlineStatus ["__proto__"] MoreSamples.protoAndAlice = ∅ ∧
  getUsersOnlineStatus ["__proto__"; "alice"] MoreSamples.protoAndAlice
    = {["alice" := true]}.
Proof.
  split; [|split; [|split; [|split; [|split]]]].
  - apply set_eq. intros k. rewrite elem_of_dom, getUsersOnlineStatus_lookup.
    rewrite elem_of_difference, elem_of_list_to_set, elem_of_singleton.
    case_decide as H; split; try done.
    all: by intros [? ?].
  - intros userId Hin Hne. rewrite getUsersOnlineStatus_lookup, decide_True by done.
    unfold isUserOnline. split.
    + split.
      * intros [= H]. by apply bool_decide_eq_true in H.
      * intros H. f_equal. by apply bool_decide_eq_true.
    + split.
      * intros [= H]. apply bool_decide_eq_false in H.
        by apply eq_None_not_Some.
      * intros H. f_equal. apply bool_decide_eq_false. by apply eq_None_not_Some.
  - intros userIds' Hperm. apply map_eq. intros k.
    rewrite !getUsersOnlineStatus_lookup.
    destruct (decide (k ∈ userIds ∧ k ≠ "__proto__")) as [[Hin Hk]|Hnot].
    + rewrite decide_True; [done|]. by rewrite Hperm.
    + rewrite decide_False; [done|]. by rewrite Hperm.
  - vm_compute. reflexivity.
  - vm_compute. reflexivity.
  - apply map_eq. intros k. rewrite getUsersOnlineStatus_lookup.
    destruct (decide (k = "alice")) as [->|Hk].
    + rewrite decide_True; [|split; [by right; left|done]].
      rewrite lookup_singleton_eq. vm_compute. reflexivity.
    + rewrite lookup_singleton_ne by done. rewrite decide_False; [done|].
      intros [Hin' Hp]. apply elem_of_cons in Hin' as [->|Hin']; [done|].
      apply elem_of_cons in Hin' as [->|Hin']; [done|].
      by apply not_elem_of_nil in Hin'.
Qed.

End RegistryClaims.

(** * Properties of the protocol handlers *)

Section HandlerClaims.
Import Server Samples.

Lemma getConnectionByUserId_offline (userId : string) (m : ConnectionManager) :
  isUserOnline userId m = false → getConnectionByUserId userId m = None.
Proof.
  unfold isUserOnline, getConnectionByUserId. intros H.
  apply bool_decide_eq_false in H.
  destruct (userSockets m !! userId); [|done]. destruct H. eauto.
Qed.

(** C3 (as amended): when the sender's session is registered and
    authenticated, its user id is non-empty, and the recipient's user id
    resolves to a registered session, the send-message handler draws exactly
    one id from randomUUID (distinct from every id drawn before when the
    generator never repeats), emits exactly one receive-message event to the
    recipient's session carrying the sender's user id, the content, the
    current time, that id and the metadata, then exactly one
    message-delivered event with the same id to the sender, and nothing
    else; the registry is left alone. *)
Theorem send_message_delivers (uuid : nat → string) (w : World) (socket : string)
    (payload : SendMessage) (now : Z) (sender recipient : Connection)
    (fromUserId : string) :
  getConnection socket (manager w) = Some sender →
  isAuth sender = true →
  getUserId sender = Some fromUserId →
  getConnectionByUserId (to payload) (manager w) = Some recipient →
  let w' := exec (onSendMessage uuid socket payload now) w in
  let messageId := uuid (drawn w) in
  drawn w' = S (drawn w) ∧
  (Inj (=) (=) uuid → ∀ n, n < drawn w → uuid n ≠ messageId) ∧
  manager w' = manager w ∧
  wire w' = wire w ++
    [Emit (getSocketId recipient)
       (RECEIVE_MESSAGE fromUserId (content payload) now messageId (metadata payload));
     Emit socket (MESSAGE_DELIVERED messageId)].
Proof.
  intros Hs Hauth Hid Hr w' messageId. subst w' messageId.
  unfold exec, onSendMessage, bind, registry. simpl.
  rewrite Hs, Hauth, Hid, Hr. simpl.
  split; [done|]. split; [|split; [done|]].
  - intros Hinj n Hn Heq. apply Hinj in Heq. lia.
  - by rewrite <- app_assoc.
Qed.

Lemma send_message_delivers_witness :
  let w' := exec (onSendMessage counterUUID "s1" hi 42) aliceAndBob in
  drawn w' = 1 ∧
  (Inj (=) (=) counterUUID → ∀ n, n < 0 → counterUUID n ≠ "0") ∧
  manager w' = manager aliceAndBob ∧
  wire w' = [Emit "s2" (RECEIVE_MESSAGE "alice" "hi" 42 "0" None);
             Emit "s1" (MESSAGE_DELIVERED "0")].
Proof.
  apply (send_message_delivers counterUUID aliceAndBob "s1" hi 42
           (authenticate alice (newConnection "s1"))
           (authenticate bob (newConnection "s2")) "alice");
    vm_compute; reflexivity.
Defined.

(** C3 (as stated) fails when the authenticated sender's user id is the
    empty string: sender registered and authenticated, recipient bob online
    and registered, yet the only event is an "Invalid user" error to the
    sender and nothing reaches bob. *)
Lemma send_message_rejects_empty_sender_id :
  (∃ sender, getConnection "s1" (manager namelessAndBob) = Some sender ∧
             isAuth sender = true) ∧
  isUserOnline "bob" (manager namelessAndBob) = true ∧
  is_Some (getConnectionByUserId "bob" (manager namelessAndBob)) ∧
  ∀ uuid now,
    wire (exec (onSendMessage uuid "s1" hi now) namelessAndBob)
    = [Emit "s1" (MESSAGE_ERROR None "Invalid user")].
Proof.
  split; [|split; [|split]].
  - eexists. split; vm_compute; reflexivity.
  - vm_compute. reflexivity.
  - vm_compute. eauto.
  - intros uuid now. vm_compute. reflexivity.
Qed.

(** The typing listener either leaves the world as it found it, or adds
    the one typing event for the resolved recipient. *)
Lemma onTyping_cases (k : TypingKind) (w : World) (socket payload_to : string) :
  (exec (onTyping k socket payload_to) w = w ∧
   (getConnection socket (manager w) = None ∨
    (∃ c, getConnection socket (manager w) = Some c ∧
          (isAuth c = false ∨ getUserId c = None)) ∨
    getConnectionByUserId payload_to (manager w) = None))
  ∨
  (∃ sender fromUserId recipient,
     getConnection socket (manager w) = Some sender ∧
     isAuth sender = true ∧
     getUserId sender = Some fromUserId ∧
     getConnectionByUserId payload_to (manager w) = Some recipient ∧
     exec (onTyping k socket payload_to) w =
       {| manager := manager w; drawn := drawn w;
          wire := wire w ++ [Emit (getSocketId recipient) (typingEvent k fromUserId)] |}).
Proof.
  unfold exec, onTyping, bind, registry, emit, socketEmit, perform, ret. simpl.
  destruct (getConnection socket (manager w)) as [c|] eqn:Hc;
    [|left; split; [done|by left]].
  destruct (isAuth c) eqn:Ha; simpl;
    [|left; split; [done|right; left; exists c; by split; [|left]]].
  destruct (getUserId c) as [fromUserId|] eqn:Hu;
    [|left; split; [done|right; left; exists c; by split; [|right]]].
  destruct (getConnectionByUserId payload_to (manager w)) as [r|] eqn:Hr;
    [|left; split; [done|by right; right]].
  right. by exists c, fromUserId, r.
Qed.

(** C4 (as amended): a typing_start or typing_stop request never changes
    the registry and emits nothing at all when the sender's session is
    unregistered, is not authenticated, carries an empty user id, or when
    the recipient's user id does not resolve to a registered session (in
    particular when it has no user-map entry); when the sender is
    authenticated with a non-empty user id and the recipient resolves, the
    one and only event is the corresponding typing event, carrying the
    sender's user id, emitted to the recipient's session. *)
Theorem typing_silent_or_forwarded (k : TypingKind) (w : World) (socket payload_to : string) :
  let w' := exec (onTyping k socket payload_to) w in
  manager w' = manager w ∧
  drawn w' = drawn w ∧
  (getConnection socket (manager w) = None → wire w' = wire w) ∧
  (∀ sender, getConnection socket (manager w) = Some sender →
     isAuth sender = false ∨ getUserId sender = None → wire w' = wire w) ∧
  (getConnectionByUserId payload_to (manager w) = None → wire w' = wire w) ∧
  (isUserOnline payload_to (manager w) = false → wire w' = wire w) ∧
  (∀ sender fromUserId recipient,
     getConnection socket (manager w) = Some sender →
     isAuth sender = true →
     getUserId sender = Some fromUserId →
     getConnectionByUserId payload_to (manager w) = Some recipient →
     wire w' = wire w ++ [Emit (getSocketId recipient) (typingEvent k fromUserId)]).
Proof.
  intros w'. subst w'.
  destruct (onTyping_cases k w socket payload_to)
    as [[-> Hwhy] | (sender & fromUserId & recipient & Hs & Ha & Hu & Hr & ->)].
  - repeat split; try done.
    intros sender fromUserId recipient Hs Ha Hu Hr.
    destruct Hwhy as [H | [(c & Hc & [H | H]) | H]]; congruence.
  - simpl. repeat split; try congruence.
    + intros c Hc [H | H]; congruence.
    + intros H%getConnectionByUserId_offline. congruence.
Qed.

Lemma typing_silent_or_forwarded_witness :
  wire (exec (onTyping Start "s1" "bob") aliceAndBob) = [Emit "s2" (TYPING_START "alice")] ∧
  wire (exec (onTyping Stop "s9" "bob") aliceAndBob) = [] ∧
  wire (exec (onTyping Stop "s1" "carol") aliceAndBob) = [].
Proof.
  split; [|split].
  - destruct (typing_silent_or_forwarded Start aliceAndBob "s1" "bob")
      as (_ & _ & _ & _ & _ & _ & H).
    apply (H (authenticate alice (newConnection "s1")) "alice"
             (authenticate bob (newConnection "s2")));
      vm_compute; reflexivity.
  - destruct (typing_silent_or_forwarded Stop aliceAndBob "s9" "bob")
      as (_ & _ & H & _).
    apply H. vm_compute. reflexivity.
  - destruct (typing_silent_or_forwarded Stop aliceAndBob "s1" "carol")
      as (_ & _ & _ & _ & _ & H & _).
    apply H. vm_compute. reflexivity.
Defined.

(** C4 (as stated) fails when the authenticated sender's user id is the
    empty string: sender authenticated, recipient bob online, and still no
    typing event is emitted to bob. *)
Lemma typing_dropped_for_empty_sender_id :
  (∃ sender, getConnection "s1" (manager namelessAndBob) = Some sender ∧
             isAuth sender = true) ∧
  isUserOnline "bob" (manager namelessAndBob) = true ∧
  is_Some (getConnectionByUserId "bob" (manager namelessAndBob)) ∧
  ∀ k, wire (exec (onTyping k "s1" "bob") namelessAndBob) = [].
Proof.
  split; [|split; [|split]].
  - eexists. split; vm_compute; reflexivity.
  - vm_compute. reflexivity.
  - vm_compute. eauto.
  - intros k. vm_compute. reflexivity.
Qed.

(** C6: how the authenticate listener resumes after the validator.  On
    null it emits auth_error ("Invalid authentication token") and then
    disconnects the session; when the validator throws it emits the generic
    auth_error ("Authentication failed") and then disconnects; in both cases
    the registry is exactly as before.  On a returned user it stamps the
    session id and the current time onto the user, hands that user to
    authenticateConnection, and emits authenticated with the user id and the
    session id.  No other outcome touches the registry or emits
    authenticated. *)
Theorem authenticate_outcomes (authHandler : string → AuthOutcome) (socket token : string)
    (now : Z) (w : World) :
  let w' := exec (onAuthenticate authHandler socket token now) w in
  (authHandler token = Resolved None →
     manager w' = manager w ∧
     wire w' = wire w ++ [Emit socket (AUTH_ERROR "Invalid authentication token");
                          Disconnect socket]) ∧
  (authHandler token = Rejected →
     manager w' = manager w ∧
     wire w' = wire w ++ [Emit socket (AUTH_ERROR "Authentication failed");
                          Disconnect socket]) ∧
  (∀ u, authHandler token = Resolved (Some u) →
     let stamped := {| User.id := User.id u; User.socketId := socket;
                       User.connectedAt := now; User.metadata := User.metadata u |} in
     manager w' = authenticateConnection socket stamped (manager w) ∧
     wire w' = wire w ++ [Emit socket (AUTHENTICATED (User.id u) socket)] ∧
     (∀ c, getConnection socket (manager w) = Some c →
        getConnection socket (manager w') = Some (authenticate stamped c) ∧
        userSockets (manager w') !! User.id u = Some socket)) ∧
  (manager w' ≠ manager w → ∃ u, authHandler token = Resolved (Some u)) ∧
  (∀ userId socketId, Emit socket (AUTHENTICATED userId socketId) ∈ wire w' →
     Emit socket (AUTHENTICATED userId socketId) ∈ wire w ∨
     ∃ u, authHandler token = Resolved (Some u) ∧ userId = User.id u ∧ socketId = socket).
Proof.
  intros w'. subst w'.
  unfold exec, onAuthenticate, bind, modifyRegistry, socketEmit, socketDisconnect,
    perform, stamp.
  destruct (authHandler token) as [[u|]|]; simpl.
  - split; [done|]. split; [done|]. split; [|split].
    + intros u' [= <-]. split; [done|]. split; [done|].
      intros c Hc. unfold getConnection in *.
      rewrite (authenticateConnection_Some _ _ _ _ Hc). simpl.
      by rewrite !lookup_insert_eq.
    + eauto.
    + intros userId socketId [Hin | Hin%list_elem_of_singleton]%elem_of_app;
        [by left|]. right. exists u. by injection Hin as -> ->.
  - rewrite <- app_assoc. split; [done|]. split; [done|]. split; [done|].
    split; [done|].
    intros userId socketId [Hin | Hin]%elem_of_app; [by left|].
    apply elem_of_cons in Hin as [Hin | Hin%list_elem_of_singleton]; done.
  - rewrite <- app_assoc. split; [done|]. split; [done|]. split; [done|].
    split; [done|].
    intros userId socketId [Hin | Hin]%elem_of_app; [by left|].
    apply elem_of_cons in Hin as [Hin | Hin%list_elem_of_singleton]; done.
Qed.

Lemma authenticate_outcomes_witness :
  let w := idle (addConnection (newConnection "s1") newConnectionManager) in
  wire (exec (onAuthenticate (λ _, Resolved None) "s1" "t" 7) w)
    = [Emit "s1" (AUTH_ERROR "Invalid authentication token"); Disconnect "s1"] ∧
  wire (exec (onAuthenticate (λ _, Rejected) "s1" "t" 7) w)
    = [Emit "s1" (AUTH_ERROR "Authentication failed"); Disconnect "s1"] ∧
  wire (exec (onAuthenticate (λ _, Resolved (Some alice)) "s1" "t" 7) w)
    = [Emit "s1" (AUTHENTICATED "alice" "s1")].
Proof.
  intros w. split; [|split].
  - destruct (authenticate_outcomes (λ _, Resolved None) "s1" "t" 7 w) as (H & _).
    by destruct (H eq_refl).
  - destruct (authenticate_outcomes (λ _, Rejected) "s1" "t" 7 w) as (_ & H & _).
    by destruct (H eq_refl).
  - destruct (authenticate_outcomes (λ _, Resolved (Some alice)) "s1" "t" 7 w)
      as (_ & _ & H & _).
    by destruct (H alice eq_refl) as (_ & ? & _).
Defined.

Lemma builtConnection_snoc (socket_id : string) (users : list User.t) (u : User.t) :
  builtConnection socket_id (users ++ [u]) = authenticate u (builtConnection socket_id users).
Proof. unfold builtConnection. by rewrite foldl_app. Qed.

(** A connection built by the documented operations is flagged
    authenticated exactly when it holds a user, and that user is the last
    one it was authenticated with. *)
Lemma builtConnection_user (socket_id : string) (users : list User.t) :
  getUser (builtConnection socket_id users) = last users ∧
  isAuth (builtConnection socket_id users) = bool_decide (is_Some (last users)).
Proof.
  induction users as [|u users _] using rev_ind.
  - done.
  - by rewrite builtConnection_snoc, last_snoc.
Qed.

(** C10 (as amended): for a connection produced by new Connection and any
    number of authenticate calls, isAuth() is true exactly when the
    connection holds a user (the flag and the user are set together and
    never unset), but that user's id may be empty.  When such a connection
    is the registered sender of a send-message request, the handler answers
    with the "Invalid user" error exactly when the connection holds a user
    whose id is the empty string; so that branch is unreachable as long as
    every user passed to authenticate has a non-empty id. *)
Theorem invalid_user_iff_empty_id (uuid : nat → string) (w : World)
    (socket socket_id : string) (users : list User.t) (payload : SendMessage) (now : Z) :
  let c := builtConnection socket_id users in
  let w' := exec (onSendMessage uuid socket payload now) w in
  (isAuth c = true ↔ is_Some (getUser c)) ∧
  (getConnection socket (manager w) = Some c →
     (wire w' = wire w ++ [Emit socket (MESSAGE_ERROR None "Invalid user")]
        ↔ ∃ u, getUser c = Some u ∧ User.id u = "")) ∧
  (getConnection socket (manager w) = Some c →
     Forall (λ u, User.id u ≠ "") users →
     wire w' ≠ wire w ++ [Emit socket (MESSAGE_ERROR None "Invalid user")]).
Proof.
  intros c w'.
  destruct (builtConnection_user socket_id users) as [Huser Hauth].
  fold c in Huser, Hauth.
  assert (Hflag : isAuth c = true ↔ is_Some (getUser c)).
  { rewrite Hauth, Huser. apply bool_decide_eq_true. }
  assert (Hiff : getConnection socket (manager w) = Some c →
     (wire w' = wire w ++ [Emit socket (MESSAGE_ERROR None "Invalid user")]
        ↔ ∃ u, getUser c = Some u ∧ User.id u = "")).
  { intros Hc. subst w'.
    unfold exec, onSendMessage, bind, registry, randomUUID, emit, socketEmit, perform.
    simpl. rewrite Hc.
    destruct (isAuth c) eqn:Ha; simpl.
    - destruct (getUserId c) as [fromUserId|] eqn:Hid.
      + apply getUserId_Some in Hid as (u & Hu & Hidu & Hne).
        destruct (getConnectionByUserId (to payload) (manager w)); simpl; split.
        * rewrite <- app_assoc. intros [=]%app_inv_head.
        * intros (u' & Hu' & Hempty). unfold getUser in Hu'. congruence.
        * intros [=]%app_inv_head.
        * intros (u' & Hu' & Hempty). unfold getUser in Hu'. congruence.
      + simpl. split; [|done]. intros _.
        apply getUserId_None in Hid as [Hnone | Hempty]; [|done].
        destruct Hflag as [Hflag _]. destruct (Hflag eq_refl) as [u Hu].
        unfold getUser in Hu. congruence.
    - split.
      + intros [=]%app_inv_head.
      + intros (u & Hu & _). destruct Hflag as [_ Hflag].
        exfalso. assert (false = true) by (apply Hflag; by exists u). done. }
  split; [exact Hflag|]. split; [exact Hiff|].
  intros Hc Hall Hwire. apply (Hiff Hc) in Hwire as (u & Hu & Hempty).
  rewrite Huser in Hu. apply last_Some_elem_of in Hu.
  rewrite Forall_forall in Hall. by apply (Hall u Hu).
Qed.

Lemma invalid_user_iff_empty_id_witness :
  wire (exec (onSendMessage counterUUID "s1" hi 42) aliceAndBob)
  ≠ [Emit "s1" (MESSAGE_ERROR None "Invalid user")].
Proof.
  destruct (invalid_user_iff_empty_id counterUUID aliceAndBob "s1" "s1" [alice] hi 42)
    as (_ & _ & H).
  apply H.
  - vm_compute. reflexivity.
  - repeat constructor. discriminate.
Defined.

(** C10 (as stated) fails: a validator that returns the user with the
    empty id makes the authenticate listener mark the session
    authenticated; isAuth() is then true while getUserId() is null, and the
    next send-message request from that session takes the "Invalid user"
    branch. *)
Lemma invalid_user_branch_reached :
  let w0 := idle (addConnection (newConnection "s1") newConnectionManager) in
  let w1 := exec (onAuthenticate acceptsNameless "s1" "token" 7) w0 in
  ∃ c, getConnection "s1" (manager w1) = Some c ∧
       c = builtConnection "s1" [stamp "s1" 7 nameless] ∧
       isAuth c = true ∧
       (∃ u, getUser c = Some u ∧ User.id u = "") ∧
       getUserId c = None ∧
       ∀ uuid, wire (exec (onSendMessage uuid "s1" hi 42) w1)
               = wire w1 ++ [Emit "s1" (MESSAGE_ERROR None "Invalid user")].
Proof.
  eexists. split; [vm_compute; reflexivity|].
  split; [vm_compute; reflexivity|].
  split; [reflexivity|]. split; [by eexists|]. split; [reflexivity|].
  intros uuid. vm_compute. reflexivity.
Qed.

End HandlerClaims.

(** * Properties of the client session *)

Section ClientClaims.
Import Client.

Lemma setState_state (s : ConnectionState) (m : ConnectionManager) :
  getState (setState s m) = s.
Proof. unfold setState, getState. by case_decide. Qed.

Lemma setState_listeners (s : ConnectionState) (m : ConnectionManager) :
  listeners (setState s m) = listeners m.
Proof. unfold setState. by case_decide. Qed.

Lemma setState_reconnectAttempts (s : ConnectionState) (m : ConnectionManager) :
  reconnectAttempts (setState s m) = reconnectAttempts m.
Proof. unfold setState. by case_decide. Qed.

Lemma setState_maxReconnectAttempts (s : ConnectionState) (m : ConnectionManager) :
  maxReconnectAttempts (setState s m) = maxReconnectAttempts m.
Proof. unfold setState. by case_decide. Qed.

Lemma setState_notified (s : ConnectionState) (m : ConnectionManager) :
  notified (setState s m) =
  notified m ++ (if decide (s = getState m) then []
                 else map (λ listener, (listener, s)) (listeners m)).
Proof.
  unfold setState, getState. case_decide as H.
  - rewrite decide_True by done. by rewrite app_nil_r.
  - by rewrite decide_False by congruence.
Qed.

(** One round of notification reaches a registered listener once. *)
Lemma one_call_per_round (listener : Listener) (s : ConnectionState) (ls : list Listener) :
  NoDup ls → listener ∈ ls →
  filter (λ call : Listener * ConnectionState, call.1 = listener)
    (map (λ l, (l, s)) ls) = [(listener, s)].
Proof.
  induction 1 as [|l ls Hnotin Hnodup IH]; intros Hin.
  - by apply elem_of_nil in Hin.
  - simpl. apply elem_of_cons in Hin as [<- | Hin].
    + rewrite filter_cons_True by done. f_equal.
      clear IH Hnodup. induction ls as [|l' ls IH]; [done|].
      apply not_elem_of_cons in Hnotin as [Hne Hnotin]. simpl.
      rewrite filter_cons_False by (simpl; congruence). by apply IH.
    + rewrite filter_cons_False; [by apply IH|]. simpl. intros ->. done.
Qed.

Lemma setState_callsTo (listener : Listener) (s : ConnectionState) (m : ConnectionManager) :
  NoDup (listeners m) → listener ∈ listeners m →
  callsTo listener (setState s m) =
  callsTo listener m ++ (if decide (s = getState m) then [] else [(listener, s)]).
Proof.
  intros Hnodup Hin. unfold callsTo. rewrite setState_notified, filter_app.
  f_equal. case_decide; [done|]. by apply one_call_per_round.
Qed.

Lemma setStates_listeners (ss : list ConnectionState) (m : ConnectionManager) :
  listeners (setStates ss m) = listeners m.
Proof.
  revert m. induction ss as [|s ss IH]; intros m; [done|].
  unfold setStates in *. simpl. by rewrite IH, setState_listeners.
Qed.

Lemma setStates_app (xs ys : list ConnectionState) (m : ConnectionManager) :
  setStates (xs ++ ys) m = setStates ys (setStates xs m).
Proof. unfold setStates. apply foldl_app. Qed.

(** The listener set never holds a listener twice. *)
Lemma onStateChange_NoDup (listener : Listener) (m : ConnectionManager) :
  NoDup (listeners m) → NoDup (listeners (onStateChange listener m)).
Proof.
  intros H. unfold onStateChange. simpl. case_decide; [done|].
  apply NoDup_app. split; [done|]. split; [|apply NoDup_singleton].
  intros x Hx ->%list_elem_of_singleton. done.
Qed.

(** C7: with a listener registered on the state machine, every setState
    call whose argument differs from the state current at that call invokes
    the listener exactly once, with the new state, and a call whose argument
    equals the current state does not invoke it; over a whole sequence the
    listener therefore sees exactly the values that differ from their
    predecessor; and after the sequence getState() is the argument of the
    last call, or the starting state (Disconnected for a new machine) when
    the sequence is empty. *)
Theorem setState_notifies_once_per_change (m0 : ConnectionManager) (listener : Listener)
    (ss : list ConnectionState) :
  NoDup (listeners m0) →
  listener ∈ listeners m0 →
  (∀ before s after, ss = before ++ s :: after →
     let m := setStates before m0 in
     callsTo listener (setState s m) =
     callsTo listener m ++ (if decide (s = getState m) then [] else [(listener, s)])) ∧
  callsTo listener (setStates ss m0) =
    callsTo listener m0 ++ map (λ s, (listener, s)) (distinctConsecutive (getState m0) ss) ∧
  getState (setStates ss m0) = default (getState m0) (last ss) ∧
  (∀ maxReconnectAttempts, getState (newConnectionManager maxReconnectAttempts) = DISCONNECTED).
Proof.
  intros Hnodup Hin. split; [|split; [|split]].
  - intros before s after _ m. subst m.
    apply setState_callsTo; by rewrite setStates_listeners.
  - revert m0 Hnodup Hin. induction ss as [|s ss IH]; intros m0 Hnodup Hin.
    + simpl. by rewrite app_nil_r.
    + change (setStates (s :: ss) m0) with (setStates ss (setState s m0)).
      rewrite IH by (by rewrite setState_listeners).
      rewrite setState_callsTo, setState_state by done. simpl.
      rewrite <- app_assoc. f_equal. by case_decide.
  - induction ss as [|s ss _] using rev_ind; [done|].
    rewrite setStates_app, last_snoc. simpl. apply setState_state.
  - done.
Qed.

Lemma setState_notifies_once_per_change_witness :
  let m0 := onStateChange 7 (newConnectionManager 5) in
  let ss := [CONNECTING; CONNECTING; CONNECTED; CONNECTED; DISCONNECTED] in
  callsTo 7 (setStates ss m0) = [(7, CONNECTING); (7, CONNECTED); (7, DISCONNECTED)] ∧
  getState (setStates ss m0) = DISCONNECTED ∧
  getState (setStates [DISCONNECTED] m0) = DISCONNECTED ∧
  callsTo 7 (setStates [DISCONNECTED] m0) = [].
Proof.
  intros m0 ss.
  assert (Hnodup : NoDup (listeners m0)) by (repeat constructor; apply not_elem_of_nil).
  assert (Hin : 7 ∈ listeners m0) by (vm_compute; left).
  destruct (setState_notifies_once_per_change m0 7 ss Hnodup Hin) as (_ & H1 & H2 & _).
  destruct (setState_notifies_once_per_change m0 7 [DISCONNECTED] Hnodup Hin)
    as (_ & H3 & H4 & _).
  split; [exact H1|]. split; [exact H2|]. split; [exact H4|exact H3].
Defined.

Lemma scheduleReconnect_spec (c : SocketClient) :
  let n := (getReconnectAttempts (connectionManager c) + 1)%Z in
  let t := {| attempt := n; delay := (reconnectionDelay (config c) * n)%Z |} in
  config (scheduleReconnect c) = config c ∧
  getReconnectAttempts (connectionManager (scheduleReconnect c)) = n ∧
  getState (connectionManager (scheduleReconnect c)) = RECONNECTING ∧
  reconnectTimer (scheduleReconnect c) = Some t ∧
  armed (scheduleReconnect c) = true ∧
  scheduled (scheduleReconnect c) = scheduled c ++ [t].
Proof.
  unfold scheduleReconnect, incrementReconnectAttempts, getReconnectAttempts. simpl.
  by rewrite setState_reconnectAttempts, setState_state.
Qed.

Lemma scheduleReconnect_linearBackoff (c : SocketClient) :
  linearBackoff c → linearBackoff (scheduleReconnect c).
Proof.
  unfold linearBackoff. intros H.
  destruct (scheduleReconnect_spec c) as (-> & _ & _ & _ & _ & ->).
  apply Forall_app. split; [done|]. by constructor.
Qed.

Lemma handle_linearBackoff (c : SocketClient) (e : TransportEvent) :
  linearBackoff c → linearBackoff (handle c e).
Proof.
  intros H. destruct e as [|reason| |userId|message|]; simpl.
  - done.
  - unfold onDisconnect.
    match goal with |- context [if ?b then _ else _] => destruct b end; [|done].
    by apply scheduleReconnect_linearBackoff.
  - unfold onConnectError.
    match goal with |- context [if ?b then _ else _] => destruct b end; [|done].
    by apply scheduleReconnect_linearBackoff.
  - done.
  - done.
  - unfold onTimer. destruct (armed c); [|done].
    unfold connect. by destruct (socketConnected _).
Qed.

Lemma run_linearBackoff (es : list TransportEvent) (c : SocketClient) :
  linearBackoff c → linearBackoff (run es c).
Proof.
  revert c. induction es as [|e es IH]; intros c H; [done|].
  apply IH. by apply handle_linearBackoff.
Qed.

Lemma newSocketClient_linearBackoff (cfg : ClientConfig) :
  linearBackoff (newSocketClient cfg).
Proof.
  unfold newSocketClient, linearBackoff, connect.
  destruct (autoConnect cfg); simpl; constructor.
Qed.

Lemma run_config (es : list TransportEvent) (c : SocketClient) :
  config (run es c) = config c.
Proof.
  revert c. induction es as [|e es IH]; intros c; [done|].
  unfold run in *. simpl. rewrite IH.
  destruct e; simpl; try done.
  - unfold onDisconnect.
    match goal with |- context [if ?b then _ else _] => destruct b end; [|done].
    by destruct (scheduleReconnect_spec
      (publish (PubDisconnect reason)
         (withUserId None (withManager (setState DISCONNECTED) (setConnected false c)))))
      as (-> & _).
  - unfold onConnectError.
    match goal with |- context [if ?b then _ else _] => destruct b end; [|done].
    by destruct (scheduleReconnect_spec (publish PubError (withManager (setState ERROR) c)))
      as (-> & _).
  - unfold onTimer. destruct (armed c); [|done].
    unfold connect. by destruct (socketConnected _).
Qed.

(** C8: a reconnect scheduling step increments the attempt counter to n
    and arms its timer for the configured base delay multiplied by n; every
    timer armed during any run of a client obeys this; with the default base
    of 1000 ms the first three attempts wait 1000, 2000 and 3000 ms. *)
Theorem reconnect_delay_linear (c : SocketClient) (cfg : ClientConfig)
    (es : list TransportEvent) :
  (let n := (getReconnectAttempts (connectionManager c) + 1)%Z in
   let timer := {| attempt := n; delay := (reconnectionDelay (config c) * n)%Z |} in
   getReconnectAttempts (connectionManager (scheduleReconnect c)) = n ∧
   reconnectTimer (scheduleReconnect c) = Some timer ∧
   scheduled (scheduleReconnect c) = scheduled c ++ [timer]) ∧
  Forall (λ t, delay t = (reconnectionDelay cfg * attempt t)%Z)
    (scheduled (run es (newSocketClient cfg))) ∧
  scheduled (afterFailures 3) =
    [ {| attempt := 1; delay := 1000 |};
      {| attempt := 2; delay := 2000 |};
      {| attempt := 3; delay := 3000 |} ].
Proof.
  split; [|split].
  - by destruct (scheduleReconnect_spec c) as (_ & ? & _ & ? & _ & ?).
  - pose proof (run_linearBackoff es _ (newSocketClient_linearBackoff cfg)) as H.
    unfold linearBackoff in H. rewrite run_config in H.
    replace (config (newSocketClient cfg)) with cfg in H; [done|].
    unfold newSocketClient, connect. by destruct (autoConnect cfg).
  - vm_compute. reflexivity.
Qed.

(** The disconnect path checks the cap: with no attempts left it schedules
    nothing. *)
Lemma onDisconnect_respects_cap (reason : string) (c : SocketClient) :
  canReconnect (connectionManager c) = false →
  scheduled (onDisconnect reason c) = scheduled c.
Proof.
  intros Hcap. unfold onDisconnect, shouldReconnect. simpl.
  replace (canReconnect (setState DISCONNECTED (connectionManager c))) with false.
  - by rewrite !andb_false_r.
  - unfold canReconnect in *.
    by rewrite setState_reconnectAttempts, setState_maxReconnectAttempts.
Qed.

(** The connect_error path does not: with reconnection enabled it always
    arms another timer. *)
Lemma onConnectError_always_schedules (c : SocketClient) :
  reconnection (config c) = true →
  scheduled (onConnectError c) =
  scheduled c ++
    [ {| attempt := getReconnectAttempts (connectionManager c) + 1;
         delay := reconnectionDelay (config c) *
                  (getReconnectAttempts (connectionManager c) + 1) |} ].
Proof.
  intros Hre. unfold onConnectError. simpl. rewrite Hre.
  destruct (scheduleReconnect_spec (publish PubError (withManager (setState ERROR) c)))
    as (_ & _ & _ & _ & _ & ->).
  simpl. unfold getReconnectAttempts. by rewrite setState_reconnectAttempts.
Qed.

(** On the client side a typing call from a session that is not in the
    Authenticated state sends nothing at all. *)
Lemma typing_calls_need_authentication (to : string) (c : SocketClient) :
  isAuthenticated (connectionManager c) = false →
  startTyping to c = c ∧ stopTyping to c = c.
Proof. intros H. unfold startTyping, stopTyping. by rewrite H. Qed.

(** C1 (the code departs from it): a client with the default
    configuration (at most 5 attempts) whose connection attempts keep
    failing has used all 5 attempts after the fifth retry; the next
    connect_error still arms a sixth timer, of 6000 ms, whereas a disconnect
    with a transport reason in the same state arms none. *)
Theorem connect_error_ignores_attempt_cap :
  getReconnectAttempts (connectionManager (afterFailures 5)) = 5%Z ∧
  maxReconnectAttempts (connectionManager (afterFailures 5)) = 5%Z ∧
  canReconnect (connectionManager (afterFailures 5)) = false ∧
  scheduled (handle (afterFailures 5) EvConnectError) =
    scheduled (afterFailures 5) ++ [ {| attempt := 6; delay := 6000 |} ] ∧
  scheduled (handle (afterFailures 5) (EvDisconnect "transport close")) =
    scheduled (afterFailures 5).
Proof.
  split; [vm_compute; reflexivity|]. split; [vm_compute; reflexivity|].
  split; [vm_compute; reflexivity|]. split; vm_compute; reflexivity.
Qed.

End ClientClaims.

(** * Further properties of the server registry *)

Section RegistryExtras.
Import Server Samples MoreSamples.

(** A session that was added is found under its own socket id; every
    other session and the whole user map are as before; the session count
    grows by one for a new id and stays put when the id was registered. *)
Lemma addConnection_lookup (c : Connection) (m : ConnectionManager) :
  getConnection (getSocketId c) (addConnection c m) = Some c ∧
  (∀ sid, sid ≠ getSocketId c →
     getConnection sid (addConnection c m) = getConnection sid m) ∧
  (∀ userId, isUserOnline userId (addConnection c m) = isUserOnline userId m) ∧
  getTotalConnections (addConnection c m) =
    if decide (is_Some (getConnection (getSocketId c) m))
    then getTotalConnections m else S (getTotalConnections m).
Proof.
  unfold getConnection, getTotalConnections, addConnection. simpl.
  split; [apply lookup_insert_eq|]. split; [|split; [done|]].
  - intros sid Hne. by rewrite lookup_insert_ne.
  - case_decide as H.
    + by apply map_size_insert_Some.
    + apply map_size_insert_None. by apply eq_None_not_Some.
Qed.

(** X1: removing a session id makes it unknown and leaves every other
    session alone; an id that is not registered changes nothing at all; a
    registered one lowers the session count by one. *)
Theorem removeConnection_lookup (sid : string) (m : ConnectionManager) :
  getConnection sid (removeConnection sid m) = None ∧
  (∀ sid', sid' ≠ sid →
     getConnection sid' (removeConnection sid m) = getConnection sid' m) ∧
  (getConnection sid m = None → removeConnection sid m = m) ∧
  (is_Some (getConnection sid m) →
     S (getTotalConnections (removeConnection sid m)) = getTotalConnections m).
Proof.
  unfold getConnection, getTotalConnections, removeConnection.
  destruct (connections m !! sid) as [c|] eqn:Hc; simpl.
  - split; [apply lookup_delete_eq|]. split; [|split; [done|]].
    + intros sid' Hne. by rewrite lookup_delete_ne.
    + intros _. rewrite map_size_delete, Hc. simpl.
      assert (size (connections m) ≠ 0); [|lia].
      apply (map_size_ne_0_lookup_2 _ sid). by rewrite Hc.
  - split; [done|]. split; [done|]. split; [done|]. by intros [? ?].
Qed.

(** X2: what authenticateConnection does to a registered session: the
    session found under that id afterwards holds the user (getUser), is
    flagged authenticated (isAuth), reports the user's id when it is not
    empty (getUserId) and keeps its socket id; the user id maps to the
    session and counts as online; every other session and every other user
    id are as before; on an id that is not registered nothing changes. *)
Theorem authenticateConnection_lookup (sid : string) (u : User.t) (m : ConnectionManager) :
  (∀ c, getConnection sid m = Some c →
     ∃ c', getConnection sid (authenticateConnection sid u m) = Some c' ∧
           getUser c' = Some u ∧
           isAuth c' = true ∧
           (User.id u ≠ "" → getUserId c' = Some (User.id u)) ∧
           getSocketId c' = getSocketId c ∧
           userSockets (authenticateConnection sid u m) !! User.id u = Some sid ∧
           isUserOnline (User.id u) (authenticateConnection sid u m) = true) ∧
  (∀ sid', sid' ≠ sid →
     getConnection sid' (authenticateConnection sid u m) = getConnection sid' m) ∧
  (∀ userId, userId ≠ User.id u →
     userSockets (authenticateConnection sid u m) !! userId = userSockets m !! userId) ∧
  (getConnection sid m = None → authenticateConnection sid u m = m).
Proof.
  unfold getConnection, isUserOnline, authenticateConnection.
  destruct (connections m !! sid) as [c|] eqn:Hc; simpl.
  - split; [|split; [|split; [|done]]].
    + intros c' [= <-]. exists (authenticate u c). rewrite !lookup_insert_eq.
      split; [done|]. split; [done|]. split; [done|]. split.
      { intros Hne. apply getUserId_Some. by exists u. }
      split; [done|]. split; [done|].
      apply bool_decide_eq_true. eauto.
    + intros sid' Hne. by rewrite lookup_insert_ne.
    + intros userId Hne. by rewrite lookup_insert_ne.
  - done.
Qed.

(** X3: when a registered session is authenticated under a non-empty user
    id and then removed, the user is offline, is not found by user id, and
    the session is gone; if the user id was not bound before, the user map
    is exactly what it was. *)
Theorem authenticate_then_remove (sid : string) (u : User.t) (m : ConnectionManager) :
  is_Some (getConnection sid m) →
  User.id u ≠ "" →
  let m' := removeConnection sid (authenticateConnection sid u m) in
  isUserOnline (User.id u) m' = false ∧
  getConnectionByUserId (User.id u) m' = None ∧
  getConnection sid m' = None ∧
  (userSockets m !! User.id u = None → userSockets m' = userSockets m).
Proof.
  intros [c Hc] Hne m'. unfold getConnection in Hc.
  assert (Hm' : m' =
    {| connections := delete sid (<[sid := authenticate u c]> (connections m));
       userSockets := delete (User.id u) (<[User.id u := sid]> (userSockets m)) |}).
  { subst m'. rewrite (authenticateConnection_Some sid u m c Hc).
    rewrite (removeConnection_Some sid _ (authenticate u c))
      by (simpl; by rewrite lookup_insert_eq).
    replace (getUserId (authenticate u c)) with (Some (User.id u)); [done|].
    symmetry. apply getUserId_Some. by exists u. }
  rewrite Hm'. unfold isUserOnline, getConnectionByUserId, getConnection. simpl.
  rewrite !lookup_delete_eq. split; [|split; [done|split; [done|]]].
  - apply bool_decide_eq_false. by intros [? ?].
  - intros Hfresh. rewrite delete_insert_eq. by apply delete_id.
Qed.

Lemma authenticate_then_remove_witness :
  let m' := removeConnection "s1" (authenticateConnection "s1" alice twoSessions) in
  isUserOnline "alice" m' = false ∧
  getConnectionByUserId "alice" m' = None ∧
  getConnection "s1" m' = None ∧
  (userSockets twoSessions !! "alice" = None → userSockets m' = userSockets twoSessions).
Proof.
  apply (authenticate_then_remove "s1" alice twoSessions).
  - vm_compute. eauto.
  - discriminate.
Defined.

(** X4: last authentication wins.  When two different registered sessions
    are authenticated under the same user id, lookup by user id returns the
    second session (provided its socket id is not the empty string), while
    the first session is still registered and still carries the user. *)
Theorem last_authentication_wins (A B : string) (u : User.t) (m : ConnectionManager)
    (cA cB : Connection) :
  A ≠ B →
  B ≠ "" →
  getConnection A m = Some cA →
  getConnection B m = Some cB →
  let m' := authenticateConnection B u (authenticateConnection A u m) in
  getConnectionByUserId (User.id u) m' = Some (authenticate u cB) ∧
  getConnection A m' = Some (authenticate u cA) ∧
  getTotalConnections m' = getTotalConnections m.
Proof.
  intros HAB HB HcA HcB m'. unfold getConnection in HcA, HcB |- *.
  assert (Hm' : m' =
    {| connections := <[B := authenticate u cB]> (<[A := authenticate u cA]> (connections m));
       userSockets := <[User.id u := B]> (<[User.id u := A]> (userSockets m)) |}).
  { subst m'. rewrite (authenticateConnection_Some A u m cA HcA).
    by rewrite (authenticateConnection_Some B u _ cB)
      by (simpl; by rewrite lookup_insert_ne). }
  rewrite Hm'. unfold getConnectionByUserId, getTotalConnections, truthy. simpl.
  rewrite lookup_insert_eq. rewrite decide_False by done.
  rewrite lookup_insert_eq. split; [done|]. split.
  - by rewrite lookup_insert_ne, lookup_insert_eq.
  - rewrite map_size_insert_Some by (rewrite lookup_insert_ne by done; eauto).
    apply map_size_insert_Some. eauto.
Qed.

Lemma last_authentication_wins_witness :
  let m' := authenticateConnection "s2" alice (authenticateConnection "s1" alice twoSessions) in
  getConnectionByUserId "alice" m' = Some (authenticate alice (newConnection "s2")) ∧
  getConnection "s1" m' = Some (authenticate alice (newConnection "s1")) ∧
  getTotalConnections m' = getTotalConnections twoSessions.
Proof.
  apply (last_authentication_wins "s1" "s2" alice twoSessions); try discriminate;
    vm_compute; reflexivity.
Defined.

(** X5: getOnlineUsers lists every user id of the user map exactly once:
    it has no duplicates, a user id is in the list exactly when
    isUserOnline holds for it, and the list is as long as the user map. *)
Theorem getOnlineUsers_exact (m : ConnectionManager) :
  NoDup (getOnlineUsers m) ∧
  (∀ userId, userId ∈ getOnlineUsers m ↔ isUserOnline userId m = true) ∧
  length (getOnlineUsers m) = size (userSockets m).
Proof.
  unfold getOnlineUsers, isUserOnline. split; [|split].
  - apply NoDup_fst_map_to_list.
  - intros userId. rewrite bool_decide_eq_true, list_elem_of_fmap. split.
    + intros ([k v] & -> & Hin). apply elem_of_map_to_list in Hin. eauto.
    + intros [v Hv]. exists (userId, v). split; [done|]. by apply elem_of_map_to_list.
  - by rewrite length_fmap, length_map_to_list.
Qed.

Lemma applyOp_keyedBySocketId (m : ConnectionManager) (op : RegistryOp) :
  keyedBySocketId m → keyedBySocketId (applyOp m op).
Proof.
  intros HK. destruct op as [c|socketId u|socketId]; simpl.
  - intros sid c'. simpl. destruct (decide (getSocketId c = sid)) as [<-|Hne].
    + rewrite lookup_insert_eq. by intros [= <-].
    + rewrite lookup_insert_ne by done. apply HK.
  - unfold authenticateConnection.
    destruct (connections m !! socketId) as [c|] eqn:Hc; [|done].
    intros sid c'. simpl. destruct (decide (socketId = sid)) as [<-|Hne].
    + rewrite lookup_insert_eq. intros [= <-]. exact (HK _ _ Hc).
    + rewrite lookup_insert_ne by done. apply HK.
  - unfold removeConnection.
    destruct (connections m !! socketId) as [c|] eqn:Hc; [|done].
    intros sid c'. simpl. rewrite lookup_delete_Some. intros [_ H]. by apply HK.
Qed.

Lemma runOps_keyedBySocketId (ops : list RegistryOp) (m : ConnectionManager) :
  keyedBySocketId m → keyedBySocketId (runOps ops m).
Proof.
  revert m. induction ops as [|op ops IH]; intros m HK; [done|].
  apply IH. by apply applyOp_keyedBySocketId.
Qed.

(** X6: whatever registry operations are applied to a new registry, in any
    order and with any arguments, every registered session is stored under
    its own socket id. *)
Theorem sessions_keyed_by_own_id (ops : list RegistryOp) (sid : string) (c : Connection) :
  getConnection sid (runOps ops newConnectionManager) = Some c → getSocketId c = sid.
Proof.
  apply (runOps_keyedBySocketId ops newConnectionManager).
  intros sid' c' H. simpl in H. by rewrite lookup_empty in H.
Qed.

Lemma sessions_keyed_by_own_id_witness :
  getSocketId (authenticate bob (newConnection "s1")) = "s1".
Proof.
  apply (sessions_keyed_by_own_id reauthenticated "s1").
  vm_compute. reflexivity.
Defined.

(** X7: in a registry built from the empty one by operations that respect
    the side conditions of R1, a user-map entry whose session id is not the
    empty string always resolves: getConnectionByUserId returns the session
    stored under that id, and that session's user id is the one looked up. *)
Theorem online_user_resolves (ops : list RegistryOp) (userId sid : string) :
  opsOk newConnectionManager ops →
  userSockets (runOps ops newConnectionManager) !! userId = Some sid →
  sid ≠ "" →
  ∃ c, getConnectionByUserId userId (runOps ops newConnectionManager) = Some c ∧
       getUserId c = Some userId ∧
       getSocketId c = sid.
Proof.
  intros Hok Hu Hsid.
  destruct (runOps_preserves ops newConnectionManager R1_new keysNonEmpty_new Hok)
    as [HR HK].
  destruct (HR _ _ Hu) as (c & u & Hc & Huser & Hid).
  exists c. unfold getConnectionByUserId, truthy. rewrite Hu.
  rewrite decide_False by done. split; [done|]. split.
  - apply getUserId_Some. exists u. split; [done|]. split; [done|]. by eapply HK.
  - apply (runOps_keyedBySocketId ops newConnectionManager); [|done].
    intros sid' c' H. simpl in H. by rewrite lookup_empty in H.
Qed.

Lemma online_user_resolves_witness :
  ∃ c, getConnectionByUserId "bob" (runOps aliceThenBob newConnectionManager) = Some c ∧
       getUserId c = Some "bob" ∧
       getSocketId c = "s2".
Proof.
  apply (online_user_resolves aliceThenBob "bob" "s2").
  - apply (bool_decide_unpack _). vm_compute. exact I.
  - vm_compute. reflexivity.
  - discriminate.
Defined.

(** X8: a session authenticated under the empty user id leaves its entry
    behind when it is removed: the empty id still counts as online although
    no session can be found for it. *)
Theorem empty_user_id_outlives_session (sid : string) (u : User.t) (m : ConnectionManager) :
  is_Some (getConnection sid m) →
  User.id u = "" →
  let m' := removeConnection sid (authenticateConnection sid u m) in
  getConnection sid m' = None ∧
  isUserOnline "" m' = true ∧
  getConnectionByUserId "" m' = None.
Proof.
  intros [c Hc] Hempty m'. unfold getConnection in Hc.
  assert (Hm' : m' =
    {| connections := delete sid (<[sid := authenticate u c]> (connections m));
       userSockets := <["" := sid]> (userSockets m) |}).
  { subst m'. rewrite (authenticateConnection_Some sid u m c Hc).
    rewrite (removeConnection_Some sid _ (authenticate u c))
      by (simpl; by rewrite lookup_insert_eq).
    replace (getUserId (authenticate u c)) with (@None string).
    - simpl. by rewrite Hempty.
    - symmetry. apply getUserId_None. right. by exists u. }
  rewrite Hm'. unfold isUserOnline, getConnectionByUserId, getConnection. simpl.
  rewrite lookup_delete_eq, lookup_insert_eq. split; [done|]. split.
  - apply bool_decide_eq_true. eauto.
  - destruct (truthy sid); [|done]. apply lookup_delete_eq.
Qed.

Lemma empty_user_id_outlives_session_witness :
  let m' := removeConnection "s1" (authenticateConnection "s1" nameless twoSessions) in
  getConnection "s1" m' = None ∧
  isUserOnline "" m' = true ∧
  getConnectionByUserId "" m' = None.
Proof.
  apply (empty_user_id_outlives_session "s1" nameless twoSessions).
  - vm_compute. eauto.
  - reflexivity.
Defined.

End RegistryExtras.

(** * Further properties of the protocol handlers and the orchestrator *)

Section HandlerExtras.
Import Server Samples MoreSamples.

(** The send-message listener on the path where everything resolves. *)
Lemma onSendMessage_delivered (uuid : nat → string) (w : World) (socket : string)
    (payload : SendMessage) (now : Z) (sender recipient : Connection)
    (fromUserId : string) :
  getConnection socket (manager w) = Some sender →
  isAuth sender = true →
  getUserId sender = Some fromUserId →
  getConnectionByUserId (to payload) (manager w) = Some recipient →
  exec (onSendMessage uuid socket payload now) w =
    {| manager := manager w; drawn := S (drawn w);
       wire := wire w ++
         [Emit (getSocketId recipient)
            (RECEIVE_MESSAGE fromUserId (content payload) now (uuid (drawn w))
               (metadata payload));
          Emit socket (MESSAGE_DELIVERED (uuid (drawn w)))] |}.
Proof.
  intros Hs Hauth Hid Hr.
  unfold exec, onSendMessage, bind, registry. simpl.
  rewrite Hs, Hauth, Hid, Hr. simpl. by rewrite <- app_assoc.
Qed.

(** X9: a send-message request from a session that is not registered, or
    is registered but not authenticated, is answered with a single
    message_error "Not authenticated" to that session; no message id is
    drawn and the registry is untouched. *)
Theorem send_message_requires_authentication (uuid : nat → string) (w : World)
    (socket : string) (payload : SendMessage) (now : Z) :
  (getConnection socket (manager w) = None ∨
   ∃ c, getConnection socket (manager w) = Some c ∧ isAuth c = false) →
  exec (onSendMessage uuid socket payload now) w =
    {| manager := manager w; drawn := drawn w;
       wire := wire w ++ [Emit socket (MESSAGE_ERROR None "Not authenticated")] |}.
Proof.
  unfold exec, onSendMessage, bind, registry. simpl.
  intros [-> | (c & -> & ->)]; done.
Qed.

Lemma send_message_requires_authentication_witness :
  wire (exec (onSendMessage counterUUID "s9" hi 42) aliceAndBob)
    = [Emit "s9" (MESSAGE_ERROR None "Not authenticated")] ∧
  wire (exec (onSendMessage counterUUID "s1" hi 42) (idle twoSessions))
    = [Emit "s1" (MESSAGE_ERROR None "Not authenticated")].
Proof.
  split.
  - rewrite (send_message_requires_authentication counterUUID aliceAndBob "s9" hi 42);
      [done|]. left. vm_compute. reflexivity.
  - rewrite (send_message_requires_authentication counterUUID (idle twoSessions) "s1" hi 42);
      [done|]. right. eexists. split; vm_compute; reflexivity.
Defined.

(** X10: when the sender is authenticated with a non-empty user id but the
    recipient's user id does not resolve to a session, the sender gets a
    single message_error "Recipient is offline" tagged with a newly drawn
    message id; nothing is sent to anyone else and the registry is
    untouched. *)
Theorem send_message_offline_recipient (uuid : nat → string) (w : World)
    (socket : string) (payload : SendMessage) (now : Z) (sender : Connection)
    (fromUserId : string) :
  getConnection socket (manager w) = Some sender →
  isAuth sender = true →
  getUserId sender = Some fromUserId →
  getConnectionByUserId (to payload) (manager w) = None →
  exec (onSendMessage uuid socket payload now) w =
    {| manager := manager w; drawn := S (drawn w);
       wire := wire w ++
         [Emit socket (MESSAGE_ERROR (Some (uuid (drawn w))) "Recipient is offline")] |}.
Proof.
  intros Hs Hauth Hid Hr.
  unfold exec, onSendMessage, bind, registry. simpl.
  by rewrite Hs, Hauth, Hid, Hr.
Qed.

Lemma send_message_offline_recipient_witness :
  exec (onSendMessage counterUUID "s1"
          {| to := "carol"; content := "hi"; metadata := None |} 42) aliceAndBob =
    {| manager := manager aliceAndBob; drawn := 1;
       wire := [Emit "s1" (MESSAGE_ERROR (Some "0") "Recipient is offline")] |}.
Proof.
  apply (send_message_offline_recipient counterUUID aliceAndBob "s1"
           {| to := "carol"; content := "hi"; metadata := None |} 42
           (authenticate alice (newConnection "s1")) "alice");
    vm_compute; reflexivity.
Defined.

(** X11: every send-message request is answered.  Whatever the state, the
    listener leaves the registry alone, draws at most one message id, and
    the last event it emits goes to the requesting session and is either
    message_delivered or message_error; the only other event it can emit is
    one receive_message, and then the answer is the message_delivered with
    the same message id. *)
Theorem send_message_always_answered (uuid : nat → string) (w : World)
    (socket : string) (payload : SendMessage) (now : Z) :
  let w' := exec (onSendMessage uuid socket payload now) w in
  manager w' = manager w ∧
  (drawn w' = drawn w ∨ drawn w' = S (drawn w)) ∧
  ((∃ messageId error, wire w' = wire w ++ [Emit socket (MESSAGE_ERROR messageId error)]) ∨
   (∃ recipient fromUserId messageId,
      wire w' = wire w ++
        [Emit recipient
           (RECEIVE_MESSAGE fromUserId (content payload) now messageId (metadata payload));
         Emit socket (MESSAGE_DELIVERED messageId)])).
Proof.
  intros w'. subst w'.
  unfold exec, onSendMessage, bind, registry, randomUUID, emit, socketEmit, perform.
  simpl.
  destruct (getConnection socket (manager w)) as [c|];
    [|split; [done|]; split; [by left|]; left; by eexists _, _].
  destruct (isAuth c); simpl;
    [|split; [done|]; split; [by left|]; left; by eexists _, _].
  destruct (getUserId c) as [fromUserId|];
    [|split; [done|]; split; [by left|]; left; by eexists _, _].
  destruct (getConnectionByUserId (to payload) (manager w)) as [r|]; simpl.
  - split; [done|]. split; [by right|]. right.
    exists (Server.socket r), fromUserId, (uuid (drawn w)). by rewrite <- app_assoc.
  - split; [done|]. split; [by right|]. left. by eexists _, _.
Qed.

(** X12: two send-message requests handled one after the other and both
    delivered carry different message ids, provided the id generator never
    repeats; each recipient gets its message and the sender gets the two
    confirmations in order. *)
Theorem consecutive_sends_use_distinct_ids (uuid : nat → string) (w : World)
    (socket : string) (p1 p2 : SendMessage) (now1 now2 : Z)
    (sender r1 r2 : Connection) (fromUserId : string) :
  Inj (=) (=) uuid →
  getConnection socket (manager w) = Some sender →
  isAuth sender = true →
  getUserId sender = Some fromUserId →
  getConnectionByUserId (to p1) (manager w) = Some r1 →
  getConnectionByUserId (to p2) (manager w) = Some r2 →
  let w2 := exec (onSendMessage uuid socket p2 now2)
              (exec (onSendMessage uuid socket p1 now1) w) in
  ∃ id1 id2,
    id1 ≠ id2 ∧
    wire w2 = wire w ++
      [Emit (getSocketId r1) (RECEIVE_MESSAGE fromUserId (content p1) now1 id1 (metadata p1));
       Emit socket (MESSAGE_DELIVERED id1);
       Emit (getSocketId r2) (RECEIVE_MESSAGE fromUserId (content p2) now2 id2 (metadata p2));
       Emit socket (MESSAGE_DELIVERED id2)].
Proof.
  intros Hinj Hs Hauth Hid Hr1 Hr2 w2. subst w2.
  rewrite (onSendMessage_delivered uuid w socket p1 now1 sender r1 fromUserId) by done.
  rewrite (onSendMessage_delivered uuid _ socket p2 now2 sender r2 fromUserId) by done.
  exists (uuid (drawn w)), (uuid (S (drawn w))). simpl. split.
  - intros Heq. apply Hinj in Heq. lia.
  - by rewrite <- app_assoc.
Qed.

Lemma consecutive_sends_use_distinct_ids_witness :
  ∃ id1 id2,
    id1 ≠ id2 ∧
    wire (exec (onSendMessage counterUUID "s1" hi 8)
            (exec (onSendMessage counterUUID "s1" hi 7) aliceAndBob)) =
      [Emit "s2" (RECEIVE_MESSAGE "alice" "hi" 7 id1 None);
       Emit "s1" (MESSAGE_DELIVERED id1);
       Emit "s2" (RECEIVE_MESSAGE "alice" "hi" 8 id2 None);
       Emit "s1" (MESSAGE_DELIVERED id2)].
Proof.
  apply (consecutive_sends_use_distinct_ids counterUUID aliceAndBob "s1" hi hi 7 8
           (authenticate alice (newConnection "s1"))
           (authenticate bob (newConnection "s2"))
           (authenticate bob (newConnection "s2")) "alice").
  - unfold counterUUID. apply _.
  - vm_compute. reflexivity.
  - reflexivity.
  - vm_compute. reflexivity.
  - vm_compute. reflexivity.
  - vm_compute. reflexivity.
Defined.

(** A get_online_status request is answered whether or not the
    requesting session is registered or authenticated: exactly one
    online_status event goes to the requester, reporting each requested id
    other than "__proto__" as online exactly when the user map has an entry
    for it; the registry is untouched and no message id is drawn. *)
Lemma online_status_needs_no_authentication (w : World) (socket : string)
    (userIds : list string) :
  ∃ statuses,
    exec (onGetOnlineStatus socket userIds) w =
      {| manager := manager w; drawn := drawn w;
         wire := wire w ++ [Emit socket (ONLINE_STATUS statuses)] |} ∧
    ∀ userId, userId ∈ userIds → userId ≠ "__proto__" →
      statuses !! userId = Some (isUserOnline userId (manager w)).
Proof.
  exists (getUsersOnlineStatus userIds (manager w)). split; [done|].
  intros userId Hin Hne. by rewrite getUsersOnlineStatus_lookup, decide_True.
Qed.

(** X13: once the authenticate listener has accepted a user with a
    non-empty id on a session registered under its own, non-empty socket
    id, that user is reachable: a send-message request addressed to the
    user's id by any registered sender that is authenticated with a
    non-empty user id is delivered to that session. *)
Theorem authenticated_user_is_reachable (uuid : nat → string)
    (authHandler : string → AuthOutcome) (socket token : string) (now : Z)
    (u : User.t) (w : World) (from : string) (payload : SendMessage) (later : Z)
    (c sender : Connection) (fromUserId : string) :
  getConnection socket (manager w) = Some c →
  getSocketId c = socket →
  socket ≠ "" →
  authHandler token = Resolved (Some u) →
  User.id u ≠ "" →
  let w1 := exec (onAuthenticate authHandler socket token now) w in
  getConnection from (manager w1) = Some sender →
  isAuth sender = true →
  getUserId sender = Some fromUserId →
  to payload = User.id u →
  isUserOnline (User.id u) (manager w1) = true ∧
  wire (exec (onSendMessage uuid from payload later) w1) =
    wire w1 ++
      [Emit socket (RECEIVE_MESSAGE fromUserId (content payload) later
                      (uuid (drawn w1)) (metadata payload));
       Emit from (MESSAGE_DELIVERED (uuid (drawn w1)))].
Proof.
  intros Hc Hkey Hsock Hauth Hne w1 Hs Hsa Hsid Hto.
  unfold getConnection in Hc.
  assert (Hm : manager w1 =
    authenticateConnection socket (stamp socket now u) (manager w)).
  { subst w1. unfold exec, onAuthenticate. by rewrite Hauth. }
  rewrite (authenticateConnection_Some _ _ _ _ Hc) in Hm.
  assert (Hr : getConnectionByUserId (to payload) (manager w1)
               = Some (authenticate (stamp socket now u) c)).
  { rewrite Hm, Hto. unfold getConnectionByUserId, truthy. simpl.
    rewrite lookup_insert_eq. rewrite decide_False by done.
    by rewrite lookup_insert_eq. }
  split.
  - rewrite Hm. unfold isUserOnline. simpl. rewrite lookup_insert_eq.
    apply bool_decide_eq_true. eauto.
  - rewrite (onSendMessage_delivered uuid w1 from payload later sender
               (authenticate (stamp socket now u) c) fromUserId) by done.
    simpl. unfold getSocketId in *. simpl. by rewrite Hkey.
Qed.

Lemma authenticated_user_is_reachable_witness :
  let w1 := exec (onAuthenticate (λ _, Resolved (Some bob)) "s2" "token" 7)
              (idle (authenticateConnection "s1" alice twoSessions)) in
  isUserOnline "bob" (manager w1) = true ∧
  wire (exec (onSendMessage counterUUID "s1" hi 9) w1) =
    wire w1 ++
      [Emit "s2" (RECEIVE_MESSAGE "alice" "hi" 9 "0" None);
       Emit "s1" (MESSAGE_DELIVERED "0")].
Proof.
  apply (authenticated_user_is_reachable counterUUID (λ _, Resolved (Some bob))
           "s2" "token" 7 bob (idle (authenticateConnection "s1" alice twoSessions))
           "s1" hi 9 (newConnection "s2") (authenticate alice (newConnection "s1"))
           "alice");
    try discriminate; try reflexivity; vm_compute; reflexivity.
Defined.

(** X14: when the validator accepts a user for a session that is no longer
    registered (it went away while the validator was running), the listener
    still emits authenticated to that socket, but the registry is unchanged:
    the user does not come online. *)
Theorem authenticate_unregistered_session (authHandler : string → AuthOutcome)
    (socket token : string) (now : Z) (u : User.t) (w : World) :
  getConnection socket (manager w) = None →
  authHandler token = Resolved (Some u) →
  exec (onAuthenticate authHandler socket token now) w =
    {| manager := manager w; drawn := drawn w;
       wire := wire w ++ [Emit socket (AUTHENTICATED (User.id u) socket)] |}.
Proof.
  intros Hc Hauth. unfold exec, onAuthenticate. rewrite Hauth.
  unfold bind, modifyRegistry, socketEmit, perform. simpl.
  unfold getConnection in Hc. unfold authenticateConnection. by rewrite Hc.
Qed.

Lemma authenticate_unregistered_session_witness :
  exec (onAuthenticate (λ _, Resolved (Some alice)) "s9" "token" 7) (idle twoSessions) =
    {| manager := twoSessions; drawn := 0;
       wire := [Emit "s9" (AUTHENTICATED "alice" "s9")] |}.
Proof.
  apply (authenticate_unregistered_session (λ _, Resolved (Some alice)) "s9" "token" 7
           alice (idle twoSessions)).
  - vm_compute. reflexivity.
  - reflexivity.
Defined.

(** X15: the disconnect listener of the orchestrator, run for the session
    object that is registered under its socket id, removes the session; if
    the session carried a non-empty user id that user goes offline and one
    user_offline broadcast is issued when a presence plugin is installed;
    if it carried none, no event is issued and the user map is as before. *)
Theorem socket_disconnect_cleans_up (presence : bool) (connection : Connection) (w : World) :
  getConnection (getSocketId connection) (manager w) = Some connection →
  let w' := exec (onSocketDisconnect presence connection) w in
  getConnection (getSocketId connection) (manager w') = None ∧
  (∀ sid, sid ≠ getSocketId connection →
     getConnection sid (manager w') = getConnection sid (manager w)) ∧
  (∀ userId, getUserId connection = Some userId →
     isUserOnline userId (manager w') = false ∧
     wire w' = wire w ++ (if presence then [Broadcast (USER_OFFLINE userId)] else [])) ∧
  (getUserId connection = None →
     wire w' = wire w ∧ userSockets (manager w') = userSockets (manager w)).
Proof.
  intros Hc w'. unfold getConnection in Hc.
  assert (Hm : manager w' = removeConnection (getSocketId connection) (manager w)).
  { subst w'. unfold exec, onSocketDisconnect, bind, modifyRegistry. simpl.
    destruct (getUserId connection); [destruct presence|]; done. }
  assert (Hw : wire w' = wire w ++
    match getUserId connection with
    | Some userId => if presence then [Broadcast (USER_OFFLINE userId)] else []
    | None => []
    end).
  { subst w'. unfold exec, onSocketDisconnect, bind, modifyRegistry. simpl.
    destruct (getUserId connection); [destruct presence|]; simpl;
      by rewrite ?app_nil_r. }
  rewrite Hm, Hw. rewrite (removeConnection_Some _ _ _ Hc).
  unfold getConnection, isUserOnline. simpl.
  split; [apply lookup_delete_eq|]. split; [|split].
  - intros sid Hne. by rewrite lookup_delete_ne.
  - intros userId ->. rewrite lookup_delete_eq. split; [|done].
    apply bool_decide_eq_false. by intros [? ?].
  - intros ->. by rewrite app_nil_r.
Qed.

Lemma socket_disconnect_cleans_up_witness :
  let connection := authenticate alice (newConnection "s1") in
  let w' := exec (onSocketDisconnect true connection) aliceAndBob in
  getConnection "s1" (manager w') = None ∧
  isUserOnline "alice" (manager w') = false ∧
  wire w' = [Broadcast (USER_OFFLINE "alice")].
Proof.
  intros connection w'.
  destruct (socket_disconnect_cleans_up true connection aliceAndBob)
    as (H1 & _ & H2 & _); [vm_compute; reflexivity|].
  destruct (H2 "alice" eq_refl) as [H3 H4].
  split; [exact H1|]. split; [exact H3|exact H4].
Defined.

(** X16: a whole session life cycle is undone by its disconnect.  For a
    socket id that is not registered and a user with a non-empty id that is
    not bound, the connection listener, then a successful authenticate, then
    the disconnect listener leave the registry exactly as it was before the
    connection; the only events are the authenticated reply and, with a
    presence plugin, the user_offline broadcast. *)
Theorem session_life_cycle_round_trip (authHandler : string → AuthOutcome)
    (presence : bool) (socket token : string) (now : Z) (u : User.t) (w : World) :
  getConnection socket (manager w) = None →
  userSockets (manager w) !! User.id u = None →
  User.id u ≠ "" →
  authHandler token = Resolved (Some u) →
  let w1 := exec (onConnection socket) w in
  let w2 := exec (onAuthenticate authHandler socket token now) w1 in
  let connection := authenticate (stamp socket now u) (newConnection socket) in
  let w3 := exec (onSocketDisconnect presence connection) w2 in
  getConnection socket (manager w2) = Some connection ∧
  manager w3 = manager w ∧
  wire w3 = wire w ++ [Emit socket (AUTHENTICATED (User.id u) socket)] ++
            (if presence then [Broadcast (USER_OFFLINE (User.id u))] else []).
Proof.
  intros Hc Hu Hne Hauth w1 w2 connection w3. unfold getConnection in Hc.
  assert (H2 : w2 =
    {| manager :=
         {| connections := <[socket := connection]>
                             (<[socket := newConnection socket]> (connections (manager w)));
            userSockets := <[User.id u := socket]> (userSockets (manager w)) |};
       drawn := drawn w;
       wire := wire w ++ [Emit socket (AUTHENTICATED (User.id u) socket)] |}).
  { subst w2 w1. unfold exec, onAuthenticate, onConnection. rewrite Hauth.
    unfold bind, modifyRegistry, socketEmit, perform. simpl.
    by rewrite (authenticateConnection_Some socket _ _ (newConnection socket))
      by (simpl; apply lookup_insert_eq). }
  assert (Hid : getUserId connection = Some (User.id u)).
  { apply getUserId_Some. by exists (stamp socket now u). }
  split; [rewrite H2; unfold getConnection; simpl; apply lookup_insert_eq|].
  subst w3. rewrite H2.
  unfold exec, onSocketDisconnect, bind, modifyRegistry. rewrite Hid. simpl.
  rewrite (removeConnection_Some socket _ connection) by (simpl; apply lookup_insert_eq).
  rewrite Hid. simpl.
  assert (Hconn : delete socket (<[socket := connection]>
                    (<[socket := newConnection socket]> (connections (manager w))))
                  = connections (manager w)).
  { rewrite !delete_insert_eq. by apply delete_id. }
  assert (Husers : delete (User.id u) (<[User.id u := socket]> (userSockets (manager w)))
                   = userSockets (manager w)).
  { rewrite delete_insert_eq. by apply delete_id. }
  rewrite Hconn, Husers.
  destruct presence; simpl; (split; [by destruct (manager w)|]).
  - by rewrite <- app_assoc.
  - done.
Qed.

Lemma session_life_cycle_round_trip_witness :
  let w := idle twoSessions in
  let w1 := exec (onConnection "s3") w in
  let w2 := exec (onAuthenticate (λ _, Resolved (Some alice)) "s3" "token" 7) w1 in
  let connection := authenticate (stamp "s3" 7 alice) (newConnection "s3") in
  let w3 := exec (onSocketDisconnect true connection) w2 in
  getConnection "s3" (manager w2) = Some connection ∧
  manager w3 = twoSessions ∧
  wire w3 = [Emit "s3" (AUTHENTICATED "alice" "s3"); Broadcast (USER_OFFLINE "alice")].
Proof.
  apply (session_life_cycle_round_trip (λ _, Resolved (Some alice)) true "s3" "token" 7
           alice (idle twoSessions)); try discriminate; try reflexivity;
    vm_compute; reflexivity.
Defined.

End HandlerExtras.

(** * Further properties of the client session *)

Section ClientExtras.
Import Client.

Lemma increments_spec (n : nat) (m : ConnectionManager) :
  reconnectAttempts (increments n m) = (reconnectAttempts m + Z.of_nat n)%Z ∧
  maxReconnectAttempts (increments n m) = maxReconnectAttempts m ∧
  state (increments n m) = state m ∧
  listeners (increments n m) = listeners m ∧
  notified (increments n m) = notified m.
Proof.
  induction n as [|n (IH1 & IH2 & IH3 & IH4 & IH5)].
  - simpl. split; [lia|done].
  - simpl. rewrite IH1, IH2, IH3, IH4, IH5. split; [lia|done].
Qed.

(** X17: the attempt counter counts.  After n increments the counter has
    grown by n, each increment returns the new count, canReconnect() holds
    exactly while the counter is below the maximum, and none of this touches
    the state or notifies a listener; resetReconnectAttempts() brings the
    counter back to 0. *)
Theorem reconnect_attempts_count (n : nat) (m : ConnectionManager) :
  getReconnectAttempts (increments n m) = (getReconnectAttempts m + Z.of_nat n)%Z ∧
  (incrementReconnectAttempts (increments n m)).1
    = (getReconnectAttempts m + Z.of_nat n + 1)%Z ∧
  (canReconnect (increments n m) = true
     ↔ (getReconnectAttempts m + Z.of_nat n < maxReconnectAttempts m)%Z) ∧
  getState (increments n m) = getState m ∧
  notified (increments n m) = notified m ∧
  getReconnectAttempts (resetReconnectAttempts (increments n m)) = 0%Z.
Proof.
  destruct (increments_spec n m) as (H1 & H2 & H3 & _ & H5).
  unfold getReconnectAttempts, canReconnect, getState. simpl.
  rewrite H1, H2, H3, H5. split; [done|]. split; [done|].
  split; [apply bool_decide_eq_true|done].
Qed.

Lemma setStates_state (ss : list ConnectionState) (m : ConnectionManager) :
  getState (setStates ss m) = default (getState m) (last ss).
Proof.
  induction ss as [|s ss _] using rev_ind; [done|].
  rewrite setStates_app, last_snoc. simpl. apply setState_state.
Qed.

Lemma setStates_no_listeners (ss : list ConnectionState) (m : ConnectionManager) :
  listeners m = [] → notified (setStates ss m) = notified m.
Proof.
  revert m. induction ss as [|s ss IH]; intros m Hl; [done|].
  change (setStates (s :: ss) m) with (setStates ss (setState s m)).
  rewrite IH by (by rewrite setState_listeners).
  rewrite setState_notified, Hl. simpl. case_decide; by rewrite app_nil_r.
Qed.

(** X18: reset() puts the machine back to Disconnected with a zero attempt
    counter and drops every listener: whatever setState calls follow, no
    listener that was registered before the reset is called again. *)
Theorem reset_silences_listeners (m : ConnectionManager) (ss : list ConnectionState) :
  getState (reset m) = DISCONNECTED ∧
  getReconnectAttempts (reset m) = 0%Z ∧
  maxReconnectAttempts (reset m) = maxReconnectAttempts m ∧
  notified (setStates ss (reset m)) = notified m ∧
  getState (setStates ss (reset m)) = default DISCONNECTED (last ss).
Proof.
  split; [done|]. split; [done|]. split; [done|]. split.
  - by rewrite setStates_no_listeners.
  - by rewrite setStates_state.
Qed.

Lemma calls_skip_removed (l l' : Listener) (s : ConnectionState) (ls : list Listener) :
  l' ≠ l →
  filter (λ call : Listener * ConnectionState, call.1 = l')
    (map (λ x, (x, s)) (filter (λ x, x ≠ l) ls))
  = filter (λ call : Listener * ConnectionState, call.1 = l') (map (λ x, (x, s)) ls).
Proof.
  intros Hne. induction ls as [|x ls IH]; [done|].
  destruct (decide (x = l)) as [->|Hx].
  - rewrite filter_cons_False by (intros H; by apply H). simpl.
    rewrite (filter_cons_False _ (l, s)) by (simpl; congruence). done.
  - rewrite filter_cons_True by done. simpl.
    destruct (decide (x = l')) as [->|Hx'].
    + rewrite !(filter_cons_True _ (l', s)) by done. by rewrite IH.
    + rewrite !(filter_cons_False _ (x, s)) by (simpl; congruence). done.
Qed.

Lemma calls_none_when_absent (l : Listener) (s : ConnectionState) (ls : list Listener) :
  l ∉ ls →
  filter (λ call : Listener * ConnectionState, call.1 = l) (map (λ x, (x, s)) ls) = [].
Proof.
  induction ls as [|x ls IH]; [done|]. intros [Hne Hnotin]%not_elem_of_cons. simpl.
  rewrite filter_cons_False by (simpl; congruence). by apply IH.
Qed.

(** Two machines in the same state, the first of which has lost
    listener [l], stay that way under the same [setState] calls. *)
Lemma unsubscribed_runs_alongside (l : Listener) (ss : list ConnectionState)
    (m1 m2 : ConnectionManager) :
  state m1 = state m2 →
  listeners m1 = filter (λ x, x ≠ l) (listeners m2) →
  callsTo l (setStates ss m1) = callsTo l m1 ∧
  ∀ l', l' ≠ l → callsTo l' m1 = callsTo l' m2 →
        callsTo l' (setStates ss m1) = callsTo l' (setStates ss m2).
Proof.
  revert m1 m2. induction ss as [|s ss IH]; intros m1 m2 Hst Hls; [done|].
  change (setStates (s :: ss) m1) with (setStates ss (setState s m1)).
  change (setStates (s :: ss) m2) with (setStates ss (setState s m2)).
  destruct (IH (setState s m1) (setState s m2)) as [IH1 IH2].
  { pose proof (setState_state s m1) as H1. pose proof (setState_state s m2) as H2.
    unfold getState in *. congruence. }
  { by rewrite !setState_listeners. }
  split.
  - rewrite IH1. unfold callsTo. rewrite setState_notified, filter_app.
    case_decide; [by rewrite app_nil_r|].
    rewrite calls_none_when_absent; [by rewrite app_nil_r|].
    rewrite Hls. rewrite list_elem_of_filter. by intros [? _].
  - intros l' Hne Hcalls. apply IH2; [done|].
    unfold callsTo in *. rewrite !setState_notified, !filter_app, Hcalls.
    unfold getState. rewrite Hst. f_equal.
    case_decide; [done|]. rewrite Hls. by apply calls_skip_removed.
Qed.

(** X19: once the closure returned by onStateChange has been called, the
    listener is never notified again, whatever setState calls follow, and
    every other listener is notified exactly as if nothing had been
    removed. *)
Theorem unsubscribed_listener_not_called (l : Listener) (m : ConnectionManager)
    (ss : list ConnectionState) :
  callsTo l (setStates ss (unsubscribe l m)) = callsTo l m ∧
  ∀ l', l' ≠ l →
    callsTo l' (setStates ss (unsubscribe l m)) = callsTo l' (setStates ss m).
Proof.
  destruct (unsubscribed_runs_alongside l ss (unsubscribe l m) m) as [H1 H2];
    [done|done|].
  split; [exact H1|]. intros l' Hne. by apply H2.
Qed.

(** X20: the listeners form a set.  Registering a listener that is already
    registered changes nothing; registration and removal keep the set free
    of duplicates; removing a listener takes it out altogether; and
    registering a new listener and removing it again gives back the
    listeners there were. *)
Theorem listeners_form_a_set (l : Listener) (m : ConnectionManager) :
  NoDup (listeners m) →
  onStateChange l (onStateChange l m) = onStateChange l m ∧
  NoDup (listeners (onStateChange l m)) ∧
  NoDup (listeners (unsubscribe l m)) ∧
  l ∈ listeners (onStateChange l m) ∧
  (l ∉ listeners (unsubscribe l (onStateChange l m))) ∧
  (l ∉ listeners m → listeners (unsubscribe l (onStateChange l m)) = listeners m).
Proof.
  intros Hnodup.
  assert (Hin : l ∈ listeners (onStateChange l m)).
  { unfold onStateChange. simpl. case_decide; [done|].
    apply elem_of_app. right. by apply list_elem_of_singleton. }
  split; [|split; [|split; [|split; [|split]]]].
  - unfold onStateChange at 1. rewrite decide_True by done. by destruct (onStateChange l m).
  - by apply onStateChange_NoDup.
  - unfold unsubscribe. simpl. by apply NoDup_filter.
  - exact Hin.
  - unfold unsubscribe. simpl. rewrite list_elem_of_filter. by intros [? _].
  - intros Hnotin. unfold unsubscribe, onStateChange. simpl.
    rewrite decide_False by done. rewrite filter_app. simpl.
    rewrite filter_cons_False by (intros H; by apply H). rewrite filter_nil, app_nil_r.
    clear Hin Hnodup. induction (listeners m) as [|x xs IH]; [done|].
    apply not_elem_of_cons in Hnotin as [Hne Hnotin].
    rewrite filter_cons_True by done. by rewrite IH.
Qed.

Lemma listeners_form_a_set_witness :
  let m := onStateChange 3 (newConnectionManager 5) in
  onStateChange 7 (onStateChange 7 m) = onStateChange 7 m ∧
  listeners (unsubscribe 7 (onStateChange 7 m)) = listeners m.
Proof.
  intros m.
  assert (Hnodup : NoDup (listeners m)) by (repeat constructor; apply not_elem_of_nil).
  destruct (listeners_form_a_set 7 m Hnodup) as (H1 & _ & _ & _ & _ & H2).
  split; [exact H1|]. apply H2. change (7 ∉ [3]).
  apply not_elem_of_cons. split; [done|apply not_elem_of_nil].
Defined.

Lemma scheduleReconnect_max (c : SocketClient) :
  maxReconnectAttempts (connectionManager (scheduleReconnect c))
  = maxReconnectAttempts (connectionManager c).
Proof.
  unfold scheduleReconnect, incrementReconnectAttempts. simpl.
  by rewrite setState_maxReconnectAttempts.
Qed.

(** The client right after the disconnect listener's bookkeeping, before
    it decides whether to reconnect. *)
Lemma onDisconnect_cases (reason : string) (c : SocketClient) :
  ∃ c1,
    reconnectAttempts (connectionManager c1) = reconnectAttempts (connectionManager c) ∧
    maxReconnectAttempts (connectionManager c1) = maxReconnectAttempts (connectionManager c) ∧
    getState (connectionManager c1) = DISCONNECTED ∧
    scheduled c1 = scheduled c ∧
    config c1 = config c ∧
    userId c1 = None ∧
    socketConnected c1 = false ∧
    ((onDisconnect reason c = c1 ∧
      (reconnection (config c) = false ∨
       reason = "io client disconnect" ∨
       canReconnect (connectionManager c) = false)) ∨
     (onDisconnect reason c = scheduleReconnect c1 ∧
      reconnection (config c) = true ∧
      reason ≠ "io client disconnect" ∧
      canReconnect (connectionManager c) = true)).
Proof.
  exists (publish (PubDisconnect reason)
            (withUserId None (withManager (setState DISCONNECTED) (setConnected false c)))).
  simpl. rewrite setState_reconnectAttempts, setState_maxReconnectAttempts, setState_state.
  repeat (split; [done|]).
  split; [unfold socketConnected, setConnected; simpl; by destruct (socket c)|].
  unfold onDisconnect, shouldReconnect. cbv zeta.
  change (config (publish (PubDisconnect reason)
            (withUserId None (withManager (setState DISCONNECTED) (setConnected false c)))))
    with (config c).
  change (connectionManager (publish (PubDisconnect reason)
            (withUserId None (withManager (setState DISCONNECTED) (setConnected false c)))))
    with (setState DISCONNECTED (connectionManager c)).
  assert (Hcan : canReconnect (setState DISCONNECTED (connectionManager c))
                 = canReconnect (connectionManager c)).
  { unfold canReconnect.
    by rewrite setState_reconnectAttempts, setState_maxReconnectAttempts. }
  rewrite Hcan.
  destruct (reconnection (config c)); [|left; split; [done|by left]].
  destruct (bool_decide (reason ≠ "io client disconnect")) eqn:Hr.
  - destruct (canReconnect (connectionManager c));
      [|left; split; [done|by right; right]].
    right. apply bool_decide_eq_true in Hr. done.
  - left. split; [done|]. right. left.
    apply bool_decide_eq_false in Hr. by destruct (decide (reason = "io client disconnect")).
Qed.

Lemma handle_capped (c : SocketClient) (e : TransportEvent) :
  e ≠ EvConnectError → capped c →
  capped (handle c e) ∧
  maxReconnectAttempts (connectionManager (handle c e))
  = maxReconnectAttempts (connectionManager c).
Proof.
  intros He [Hpos Hall]. unfold capped.
  destruct e as [|reason| |userId|message|]; simpl; try done.
  - unfold onConnect. simpl. rewrite setState_maxReconnectAttempts. done.
  - destruct (onDisconnect_cases reason c)
      as (c1 & Ha & Hm & _ & Hs & _ & _ & _ & [(-> & _) | (-> & _ & _ & Hcan)]).
    + by rewrite Ha, Hm, Hs.
    + apply bool_decide_eq_true in Hcan.
      destruct (scheduleReconnect_spec c1) as (_ & Hn & _ & _ & _ & Hs').
      unfold getReconnectAttempts in Hn, Hs'.
      rewrite scheduleReconnect_max, Hn, Hs', Ha, Hm, Hs.
      split; [|done]. split; [lia|].
      apply Forall_app. split; [done|]. constructor; [simpl; lia|constructor].
  - unfold onAuthenticated. simpl.
    by rewrite setState_reconnectAttempts, setState_maxReconnectAttempts.
  - unfold onTimer. destruct (armed c); [|done]. unfold connect.
    destruct (socketConnected _); simpl; [done|].
    by rewrite setState_reconnectAttempts, setState_maxReconnectAttempts.
Qed.

Lemma run_capped (es : list TransportEvent) (c : SocketClient) :
  Forall (λ e, e ≠ EvConnectError) es → capped c →
  capped (run es c) ∧
  maxReconnectAttempts (connectionManager (run es c))
  = maxReconnectAttempts (connectionManager c).
Proof.
  revert c. induction es as [|e es IH]; intros c Hes Hc; [done|].
  apply Forall_cons in Hes as [He Hes].
  destruct (handle_capped c e He Hc) as [Hc' Hmax].
  destruct (IH (handle c e) Hes Hc') as [Hc'' Hmax'].
  split; [exact Hc''|]. unfold run in *. simpl. congruence.
Qed.

(** X21: as long as no connect_error arrives, the cap on attempts holds:
    in every run of a new client made of connect, disconnect (with any
    reason), authentication and timer events, every timer that is armed is
    for an attempt number between 1 and the configured maximum. *)
Theorem disconnect_path_respects_cap (cfg : ClientConfig) (es : list TransportEvent) :
  Forall (λ e, e ≠ EvConnectError) es →
  Forall (λ t, (1 ≤ attempt t ≤ reconnectionAttempts cfg)%Z)
    (scheduled (run es (newSocketClient cfg))).
Proof.
  intros Hes.
  assert (Hnew : capped (newSocketClient cfg) ∧
                 maxReconnectAttempts (connectionManager (newSocketClient cfg))
                 = reconnectionAttempts cfg).
  { unfold newSocketClient, capped, connect.
    destruct (autoConnect cfg); simpl; (split; [|done]); (split; [done|constructor]). }
  destruct Hnew as [Hnew Hmax].
  destruct (run_capped es _ Hes Hnew) as [[_ Hall] Hmax'].
  by rewrite Hmax', Hmax in Hall.
Qed.

Lemma disconnect_path_respects_cap_witness :
  Forall (λ t, (1 ≤ attempt t ≤ 5)%Z)
    (scheduled (run [EvConnect; EvDisconnect "transport close"; EvTimer;
                     EvDisconnect "ping timeout"; EvDisconnect "io client disconnect"]
                  (newSocketClient (defaultConfig "http://localhost:3000")))).
Proof.
  apply (disconnect_path_respects_cap (defaultConfig "http://localhost:3000")).
  repeat constructor; discriminate.
Defined.

(** X22: a successful connection restarts the backoff.  Whatever the
    attempt counter was, after a connect event a following disconnect with a
    reason other than the client's own (reconnection on, maximum above 0)
    arms a timer for attempt 1 at the base delay and leaves the client
    Reconnecting. *)
Theorem backoff_restarts_after_connect (c : SocketClient) (reason : string) :
  reconnection (config c) = true →
  reason ≠ "io client disconnect" →
  (0 < maxReconnectAttempts (connectionManager c))%Z →
  let c' := run [EvConnect; EvDisconnect reason] c in
  scheduled c' = scheduled c ++ [ {| attempt := 1; delay := reconnectionDelay (config c) |} ] ∧
  getReconnectAttempts (connectionManager c') = 1%Z ∧
  getState (connectionManager c') = RECONNECTING.
Proof.
  intros Hre Hreason Hmax c'. subst c'. unfold run. simpl.
  assert (Hc0 : reconnectAttempts (connectionManager (onConnect c)) = 0%Z ∧
                maxReconnectAttempts (connectionManager (onConnect c))
                = maxReconnectAttempts (connectionManager c) ∧
                config (onConnect c) = config c ∧
                scheduled (onConnect c) = scheduled c).
  { unfold onConnect. simpl. by rewrite setState_maxReconnectAttempts. }
  destruct Hc0 as (H0 & Hm0 & Hcfg0 & Hs0).
  destruct (onDisconnect_cases reason (onConnect c))
    as (c1 & Ha & Hm & _ & Hs & Hcfg & _ & _ & [(_ & Hno) | (-> & _)]).
  - exfalso. rewrite Hcfg0 in Hno. destruct Hno as [Hno | [Hno | Hno]]; [congruence|done|].
    apply bool_decide_eq_false in Hno. apply Hno. rewrite H0, Hm0. exact Hmax.
  - destruct (scheduleReconnect_spec c1) as (_ & Hn & Hst & _ & _ & Hs').
    rewrite Hn, Hst, Hs'. unfold getReconnectAttempts.
    rewrite Ha, H0, Hs, Hs0, Hcfg, Hcfg0. simpl. by rewrite Z.mul_1_r.
Qed.

Lemma backoff_restarts_after_connect_witness :
  scheduled (run [EvConnect; EvDisconnect "transport close"] (afterFailures 3)) =
    scheduled (afterFailures 3) ++ [ {| attempt := 1; delay := 1000 |} ].
Proof.
  destruct (backoff_restarts_after_connect (afterFailures 3) "transport close")
    as (H & _); [reflexivity|discriminate|vm_compute; reflexivity|].
  exact H.
Defined.

Lemma onDisconnect_state (reason : string) (c : SocketClient) :
  (getState (connectionManager (onDisconnect reason c)) = DISCONNECTED ∨
   getState (connectionManager (onDisconnect reason c)) = RECONNECTING) ∧
  socketConnected (onDisconnect reason c) = false ∧
  userId (onDisconnect reason c) = None.
Proof.
  destruct (onDisconnect_cases reason c)
    as (c1 & _ & _ & Hst & _ & _ & Hu & Hsock & [(-> & _) | (-> & _)]).
  - split; [by left|done].
  - destruct (scheduleReconnect_spec c1) as (_ & _ & Hst' & _).
    split; [by right|]. unfold scheduleReconnect, incrementReconnectAttempts. by simpl.
Qed.

(** X23: a transport disconnect logs the client out.  Whatever the reason
    and whether or not a reconnect gets scheduled, afterwards the cached
    user id is cleared, the state is Disconnected or Reconnecting, the
    operations that throw (authenticate, sendMessage, getOnlineStatus) all
    throw, and the typing calls send nothing; when the reason is the
    client's own disconnect no timer is armed. *)
Theorem transport_drop_logs_out (c : SocketClient) (reason token to content : string)
    (metadata : option Metadata) (userIds : list string) :
  let c' := onDisconnect reason c in
  userId c' = None ∧
  (getState (connectionManager c') = DISCONNECTED ∨
   getState (connectionManager c') = RECONNECTING) ∧
  authenticate token c' = None ∧
  sendMessage to content metadata c' = None ∧
  getOnlineStatus userIds c' = None ∧
  startTyping to c' = c' ∧
  stopTyping to c' = c' ∧
  (reason = "io client disconnect" → scheduled c' = scheduled c).
Proof.
  intros c'.
  destruct (onDisconnect_state reason c) as (Hst & Hsock & Huser). fold c' in Hst, Hsock, Huser.
  assert (Hauth : isAuthenticated (connectionManager c') = false ∧
                  isConnected (connectionManager c') = false).
  { unfold isAuthenticated, isConnected, getState in *. by destruct Hst as [-> | ->]. }
  destruct Hauth as [Hauth Hconn].
  unfold authenticate, sendMessage, getOnlineStatus, startTyping, stopTyping.
  rewrite Hauth, Hconn, Hsock.
  split; [done|]. split; [done|]. repeat (split; [done|]).
  intros ->. subst c'.
  by destruct (onDisconnect_cases "io client disconnect" c)
    as (c1 & _ & _ & _ & Hs & _ & _ & _ & [(-> & _) | (_ & _ & ? & _)]).
Qed.

(** X24: an explicit disconnect() is terminal.  Afterwards the state is
    Disconnected with a zero attempt counter, no user id, no socket and no
    listeners; the pending reconnect timer is cancelled, so a timer
    callback does nothing; the transport's own disconnect notification arms
    no timer; and authenticate and sendMessage throw. *)
Theorem explicit_disconnect_is_terminal (c : SocketClient) (token to content : string)
    (metadata : option Metadata) :
  let c' := disconnect c in
  getState (connectionManager c') = DISCONNECTED ∧
  getReconnectAttempts (connectionManager c') = 0%Z ∧
  listeners (connectionManager c') = [] ∧
  userId c' = None ∧
  socket c' = None ∧
  reconnectTimer c' = None ∧
  handle c' EvTimer = c' ∧
  scheduled (handle c' (EvDisconnect "io client disconnect")) = scheduled c ∧
  authenticate token c' = None ∧
  sendMessage to content metadata c' = None.
Proof.
  intros c'. subst c'. repeat (split; [done|]). split; [|done].
  simpl.
  by destruct (onDisconnect_cases "io client disconnect" (disconnect c))
    as (c1 & _ & _ & _ & Hs & _ & _ & _ & [(-> & _) | (_ & _ & ? & _)]).
Qed.

(** X25: after the transport has connected, and before any
    authentication, the client counts as connected with a zero attempt
    counter: connect() is a no-op, authenticate and getOnlineStatus send
    their requests, while sendMessage throws and the typing calls send
    nothing; once the authenticated event has arrived sendMessage sends. *)
Theorem connected_before_authenticated (c : SocketClient) (token to content uid : string)
    (metadata : option Metadata) (userIds : list string) :
  is_Some (socket c) →
  let c' := onConnect c in
  isConnected (connectionManager c') = true ∧
  getReconnectAttempts (connectionManager c') = 0%Z ∧
  connect c' = c' ∧
  authenticate token c' = Some (send (ReqAuthenticate token) c') ∧
  getOnlineStatus userIds c' = Some (send (ReqGetOnlineStatus userIds) c') ∧
  sendMessage to content metadata c' = None ∧
  startTyping to c' = c' ∧
  sendMessage to content metadata (onAuthenticated uid c')
    = Some (send (ReqSendMessage to content metadata) (onAuthenticated uid c')) ∧
  userId (onAuthenticated uid c') = Some uid.
Proof.
  intros [s Hs] c'.
  assert (Hst : state (connectionManager c') = CONNECTED).
  { subst c'. unfold onConnect. simpl. apply setState_state. }
  assert (Hsock : socketConnected c' = true).
  { subst c'. unfold onConnect, socketConnected, setConnected. simpl. by rewrite Hs. }
  assert (Hst2 : state (connectionManager (onAuthenticated uid c')) = AUTHENTICATED).
  { unfold onAuthenticated. simpl. apply setState_state. }
  unfold connect, authenticate, getOnlineStatus, sendMessage, startTyping,
    isConnected, isAuthenticated.
  rewrite Hsock, Hst, Hst2. done.
Qed.

Lemma connected_before_authenticated_witness :
  let c' := onConnect (newSocketClient (defaultConfig "http://localhost:3000")) in
  isConnected (connectionManager c') = true ∧
  sendMessage "bob" "hi" None c' = None ∧
  sendMessage "bob" "hi" None (onAuthenticated "alice" c')
    = Some (send (ReqSendMessage "bob" "hi" None) (onAuthenticated "alice" c')).
Proof.
  intros c'.
  destruct (connected_before_authenticated
              (newSocketClient (defaultConfig "http://localhost:3000"))
              "token" "bob" "hi" "alice" None [])
    as (H1 & _ & _ & _ & _ & H2 & _ & H3 & _); [vm_compute; eauto|].
  split; [exact H1|]. split; [exact H2|exact H3].
Defined.

End ClientExtras.

(** * Properties of the client event dispatcher *)

Section EmitterExtras.
Import Emitter.

Lemma on_events (event : string) (handler : EventHandler) (e : EventEmitter) :
  events (on event handler e)
  = <[event := default [] (events e !! event) ++ [handler]]> (events e) ∧
  called (on event handler e) = called e.
Proof.
  unfold on. destruct (events e !! event) as [handlers|] eqn:He.
  - by rewrite He.
  - rewrite lookup_insert_eq. simpl. by rewrite insert_insert_eq.
Qed.

Lemma off_lookup (event : string) (handler : EventHandler) (e : EventEmitter) :
  default [] (events (off event handler e) !! event)
  = removeFirst handler (default [] (events e !! event)).
Proof.
  unfold off. destruct (events e !! event) as [handlers|] eqn:He.
  - simpl. case_decide as Hlen.
    + rewrite lookup_delete_eq. simpl. symmetry. by apply nil_length_inv.
    + by rewrite lookup_insert_eq.
  - by rewrite He.
Qed.

Lemma off_other (event other : string) (handler : EventHandler) (e : EventEmitter) :
  other ≠ event → events (off event handler e) !! other = events e !! other.
Proof.
  intros Hne. unfold off. destruct (events e !! event); [|done]. simpl.
  case_decide; [by rewrite lookup_delete_ne|by rewrite lookup_insert_ne].
Qed.

Lemma removeFirst_absent (handler : EventHandler) (handlers : list EventHandler) :
  handler ∉ handlers → removeFirst handler (handlers ++ [handler]) = handlers.
Proof.
  induction handlers as [|h hs IH]; simpl.
  - intros _. by rewrite decide_True.
  - intros [Hne Hnotin]%not_elem_of_cons. rewrite decide_False by done.
    by rewrite IH.
Qed.

Lemma removeFirst_count (handler h : EventHandler) (handlers : list EventHandler) :
  length (filter (λ x, x = h) (removeFirst handler handlers))
  = if decide (h = handler) then pred (length (filter (λ x, x = h) handlers))
    else length (filter (λ x, x = h) handlers).
Proof.
  induction handlers as [|x xs IH]; cbn [removeFirst].
  - by case_decide.
  - destruct (decide (x = handler)) as [->|Hx].
    + destruct (decide (h = handler)) as [->|Hh].
      * rewrite filter_cons_True by reflexivity. reflexivity.
      * by rewrite filter_cons_False by congruence.
    + destruct (decide (x = h)) as [->|Hxh].
      * rewrite !filter_cons_True by done. cbn [length]. rewrite IH.
        by rewrite !decide_False by done.
      * rewrite !filter_cons_False by done. apply IH.
Qed.

Lemma on_noEmptyBucket (event : string) (handler : EventHandler) (e : EventEmitter) :
  noEmptyBucket e → noEmptyBucket (on event handler e).
Proof.
  intros Hinv ev handlers. destruct (on_events event handler e) as [-> _].
  destruct (decide (event = ev)) as [<-|Hne].
  - rewrite lookup_insert_eq. intros [= <-]. by destruct (default [] _).
  - rewrite lookup_insert_ne by done. apply Hinv.
Qed.

Lemma off_noEmptyBucket (event : string) (handler : EventHandler) (e : EventEmitter) :
  noEmptyBucket e → noEmptyBucket (off event handler e).
Proof.
  intros Hinv. unfold off. destruct (events e !! event) as [hs|] eqn:He; [|done].
  intros ev handlers. simpl. case_decide as Hlen.
  - rewrite lookup_delete_Some. intros [_ H]. by eapply Hinv.
  - destruct (decide (event = ev)) as [<-|Hne].
    + rewrite lookup_insert_eq. intros [= <-] Hnil. apply Hlen. by rewrite Hnil.
    + rewrite lookup_insert_ne by done. apply Hinv.
Qed.

Lemma removeAllListeners_noEmptyBucket (target : option string) (e : EventEmitter) :
  noEmptyBucket e → noEmptyBucket (removeAllListeners target e).
Proof.
  intros Hinv. unfold removeAllListeners. destruct target as [name|].
  - destruct (truthy name); intros ev handlers; simpl.
    + rewrite lookup_delete_Some. intros [_ H]. by eapply Hinv.
    + by rewrite lookup_empty.
  - intros ev handlers. simpl. by rewrite lookup_empty.
Qed.

Lemma reenter_noEmptyBucket (event : string) (w : Walk) (r : Reentry) :
  noEmptyBucket (table w) → noEmptyBucket (table (reenter event w r)).
Proof.
  intros Hinv. destruct r as [ev handler|ev handler|target]; simpl.
  - by apply on_noEmptyBucket.
  - destruct (attached w && bool_decide (ev = event)); simpl; by apply off_noEmptyBucket.
  - by apply removeAllListeners_noEmptyBucket.
Qed.

Lemma forEach_noEmptyBucket (behaviour : Behaviour) (event : string) (args : Args)
    (k n : nat) (w : Walk) :
  noEmptyBucket (table w) → noEmptyBucket (table (forEach behaviour event args k n w)).
Proof.
  revert k w. induction n as [|n IH]; intros k w Hinv; [done|]. simpl.
  destruct (bucket w !! k) as [handler|]; [|by apply IH].
  apply IH.
  generalize (behaviour handler event args (table w)). intros rs.
  set (w1 := {| table := _; bucket := bucket w; attached := attached w |}).
  assert (Hw1 : noEmptyBucket (table w1)) by exact Hinv.
  clearbody w1. revert w1 Hw1. induction rs as [|r rs IHrs]; intros w1 Hw1; [done|].
  simpl. apply IHrs. by apply reenter_noEmptyBucket.
Qed.

Lemma applyEmitterOp_noEmptyBucket (behaviour : Behaviour) (e : EventEmitter)
    (op : EmitterOp) :
  noEmptyBucket e → noEmptyBucket (applyEmitterOp behaviour e op).
Proof.
  intros Hinv. destruct op as [event handler|event handler|event args|event]; simpl.
  - by apply on_noEmptyBucket.
  - by apply off_noEmptyBucket.
  - unfold emit. destruct (events e !! event); [|done].
    by apply forEach_noEmptyBucket.
  - by apply removeAllListeners_noEmptyBucket.
Qed.

(** X26: the dispatcher never keeps an empty bucket.  After any sequence
    of on, off, emit and removeAllListeners calls on a new emitter, whatever
    the handlers do to the emitter while they are called, every event name
    that is present in the table has at least one handler. *)
Theorem buckets_never_empty (behaviour : Behaviour) (ops : list EmitterOp) (event : string)
    (handlers : list EventHandler) :
  events (runEmitterOps behaviour ops newEventEmitter) !! event = Some handlers →
  handlers ≠ [].
Proof.
  assert (H : ∀ e, noEmptyBucket e → noEmptyBucket (runEmitterOps behaviour ops e)).
  { induction ops as [|op ops IH]; intros e He; [done|].
    apply IH. by apply applyEmitterOp_noEmptyBucket. }
  apply (H newEventEmitter). intros ev hs Hev. simpl in Hev.
  by rewrite lookup_empty in Hev.
Qed.

Lemma buckets_never_empty_witness : [2] ≠ ([] : list EventHandler).
Proof.
  apply (buckets_never_empty once1
           [OpOn "message" 1; OpOn "message" 2; OpOn "error" 3;
            OpEmit "message" ["hi"]; OpOff "error" 3] "message").
  vm_compute. reflexivity.
Defined.

(** While the walk is attached, the array it walks is the bucket the table
    holds for the event. *)
Lemma reenter_walkAttached (event : string) (w : Walk) (r : Reentry) :
  walkAttached event w → walkAttached event (reenter event w r).
Proof.
  unfold walkAttached. intros Hw. destruct r as [ev handler|ev handler|target]; simpl.
  - intros Ha. specialize (Hw Ha). rewrite Ha. simpl.
    destruct (on_events ev handler (table w)) as [-> _].
    case_bool_decide as Hev.
    + subst ev. by rewrite lookup_insert_eq, Hw.
    + by rewrite lookup_insert_ne.
  - destruct (attached w) eqn:Ha; simpl.
    + specialize (Hw eq_refl). case_bool_decide as Hev.
      * subst ev. simpl. unfold off. rewrite Hw. simpl.
        case_decide; [done|]. intros _. by rewrite lookup_insert_eq.
      * simpl. intros _. by rewrite off_other.
    + done.
  - intros [Ha Hc]%andb_true_iff. specialize (Hw Ha).
    apply negb_true_iff in Hc. unfold clears, removeAllListeners in *.
    destruct target as [name|]; [|done]. destruct (truthy name); [|done]. simpl.
    apply bool_decide_eq_false in Hc. by rewrite lookup_delete_ne.
Qed.

(** A stretch of the walk that only meets handlers which leave the emitter
    alone calls them in order and changes nothing else. *)
Lemma forEach_inert (behaviour : Behaviour) (event : string) (args : Args)
    (n k : nat) (w : Walk) :
  (∀ h, h ∈ drop k (bucket w) → ∀ e, behaviour h event args e = []) →
  forEach behaviour event args k n w =
    {| table := {| events := events (table w);
                   called := called (table w) ++
                             map (λ h, (h, event, args)) (take n (drop k (bucket w))) |};
       bucket := bucket w;
       attached := attached w |}.
Proof.
  revert k w. induction n as [|n IH]; intros k w Hinert.
  - simpl. rewrite app_nil_r. by destruct w as [[? ?] ? ?].
  - simpl. destruct (bucket w !! k) as [handler|] eqn:Hk.
    + rewrite (drop_S _ _ _ Hk) in Hinert |- *.
      rewrite (Hinert handler) by (by left). simpl.
      rewrite IH; simpl.
      * by rewrite <- app_assoc.
      * intros h Hh. apply Hinert. by right.
    + rewrite IH.
      * apply lookup_ge_None in Hk.
        rewrite !drop_ge by lia. by rewrite !take_nil.
      * intros h Hh. apply Hinert.
        apply lookup_ge_None in Hk. rewrite drop_ge in Hh by lia.
        by apply elem_of_nil in Hh.
Qed.

Lemma forEach_visit (behaviour : Behaviour) (event : string) (args : Args)
    (k n : nat) (w : Walk) (handler : EventHandler) :
  bucket w !! k = Some handler →
  forEach behaviour event args k (S n) w =
  forEach behaviour event args (S k) n
    (foldl (reenter event)
       {| table := {| events := events (table w);
                      called := called (table w) ++ [(handler, event, args)] |};
          bucket := bucket w;
          attached := attached w |}
       (behaviour handler event args (table w))).
Proof. intros H. simpl. by rewrite H. Qed.

Lemma off_nonempty (event : string) (handler : EventHandler) (e : EventEmitter)
    (handlers : list EventHandler) :
  events e !! event = Some handlers →
  removeFirst handler handlers ≠ [] →
  off event handler e =
    {| events := <[event := removeFirst handler handlers]> (events e);
       called := called e |}.
Proof.
  intros He Hne. unfold off. rewrite He. simpl. rewrite decide_False; [done|].
  intros Hlen. by apply nil_length_inv in Hlen.
Qed.

(** X27: emit walks the event's live handler array.  An event without
    handlers changes nothing.  When none of the event's handlers calls back
    into the emitter, they are all called, in registration order and once
    per registration, and the table is unchanged.  But when the first
    handler removes itself while it runs (and the handlers after the next
    one leave the emitter alone), the handler registered right after it is
    skipped by that emit, although it stays registered. *)
Theorem emit_walks_the_live_bucket (behaviour : Behaviour) (event : string) (args : Args)
    (e : EventEmitter) :
  (events e !! event = None → emit behaviour event args e = e) ∧
  (∀ handlers,
     events e !! event = Some handlers →
     (∀ h, h ∈ handlers → ∀ e', behaviour h event args e' = []) →
     emit behaviour event args e =
       {| events := events e;
          called := called e ++ map (λ h, (h, event, args)) handlers |}) ∧
  (∀ first next rest,
     events e !! event = Some (first :: next :: rest) →
     (∀ e', behaviour first event args e' = [ReOff event first]) →
     (∀ h, h ∈ rest → ∀ e', behaviour h event args e' = []) →
     emit behaviour event args e =
       {| events := <[event := next :: rest]> (events e);
          called := called e ++ (first, event, args) ::
                    map (λ h, (h, event, args)) rest |}).
Proof.
  split; [|split].
  - unfold emit. by intros ->.
  - intros handlers He Hinert. unfold emit. rewrite He.
    rewrite forEach_inert by (simpl; by rewrite drop_0).
    simpl. by rewrite drop_0, firstn_all.
  - intros first next rest He Hfirst Hrest. unfold emit. rewrite He.
    change (length (first :: next :: rest)) with (S (length (next :: rest))).
    rewrite (forEach_visit behaviour event args 0 _ _ first) by done.
    cbn [table bucket attached]. rewrite Hfirst.
    cbn [foldl reenter attached andb]. rewrite bool_decide_eq_true_2 by done.
    cbn [table bucket removeFirst]. rewrite decide_True by done.
    rewrite (off_nonempty event first _ (first :: next :: rest)) by
      (try done; cbn [removeFirst]; by rewrite decide_True).
    cbn [removeFirst events called]. rewrite decide_True by done.
    rewrite forEach_inert by (cbn [bucket drop]; by rewrite drop_0).
    cbn [table bucket events called drop]. rewrite drop_0.
    rewrite take_ge by (simpl; lia). by rewrite <- app_assoc.
Qed.

Lemma emit_walks_the_live_bucket_witness :
  let e := on "message" 3 (on "message" 2 (on "message" 1 newEventEmitter)) in
  emit inert "message" ["hi"] e =
    {| events := events e;
       called := [(1, "message", ["hi"]); (2, "message", ["hi"]); (3, "message", ["hi"])] |} ∧
  emit once1 "message" ["hi"] e =
    {| events := <["message" := [2; 3]]> (events e);
       called := [(1, "message", ["hi"]); (3, "message", ["hi"])] |}.
Proof.
  intros e. split.
  - destruct (emit_walks_the_live_bucket inert "message" ["hi"] e) as (_ & H & _).
    apply (H [1; 2; 3]); [vm_compute; reflexivity|done].
  - destruct (emit_walks_the_live_bucket once1 "message" ["hi"] e) as (_ & _ & H).
    apply (H 1 2 [3]); [vm_compute; reflexivity|done|].
    intros h Hh e'. apply list_elem_of_singleton in Hh. by subst h.
Defined.

(** X28: the cleanup closure returned by on undoes the registration.  When
    the table has no empty bucket and the handler was not already
    registered for the event, registering it and then calling the cleanup
    gives back the emitter exactly as it was. *)
Theorem on_then_cleanup_round_trip (event : string) (handler : EventHandler)
    (e : EventEmitter) :
  noEmptyBucket e →
  handler ∉ default [] (events e !! event) →
  off event handler (on event handler e) = e.
Proof.
  intros Hinv Hnotin. destruct (on_events event handler e) as [Hev Hcalled].
  unfold off. rewrite Hev, lookup_insert_eq, Hcalled.
  rewrite removeFirst_absent by done.
  destruct e as [evs cs]. simpl in *. f_equal.
  destruct (evs !! event) as [handlers|] eqn:He; simpl.
  - rewrite decide_False.
    + rewrite insert_insert_eq. by apply insert_id.
    + intros Hlen. apply nil_length_inv in Hlen. by apply (Hinv event handlers).
  - rewrite delete_insert_eq. by apply delete_id.
Qed.

Lemma on_then_cleanup_round_trip_witness :
  off "message" 2 (on "message" 2 (on "message" 1 newEventEmitter))
  = on "message" 1 newEventEmitter.
Proof.
  apply (on_then_cleanup_round_trip "message" 2 (on "message" 1 newEventEmitter)).
  - apply on_noEmptyBucket.
    intros event handlers H. simpl in H. by rewrite lookup_empty in H.
  - change (2 ∉ [1]). apply not_elem_of_cons. split; [done|apply not_elem_of_nil].
Defined.

(** X29: off removes one registration at a time.  It lowers the number of
    registrations of that handler for that event by one (a handler
    registered twice is still registered once), leaves the registrations of
    every other handler and every other event alone, calls nobody, and does
    nothing when the event has no bucket. *)
Theorem off_removes_one_registration (event : string) (handler : EventHandler)
    (e : EventEmitter) :
  registrations event handler (off event handler e)
    = pred (registrations event handler e) ∧
  (∀ h, h ≠ handler →
     registrations event h (off event handler e) = registrations event h e) ∧
  (∀ other, other ≠ event →
     events (off event handler e) !! other = events e !! other) ∧
  called (off event handler e) = called e ∧
  (events e !! event = None → off event handler e = e).
Proof.
  split; [|split; [|split; [|split]]].
  - unfold registrations. rewrite off_lookup, removeFirst_count.
    by rewrite decide_True.
  - intros h Hne. unfold registrations. rewrite off_lookup, removeFirst_count.
    by rewrite decide_False.
  - intros other Hne. by apply off_other.
  - unfold off. by destruct (events e !! event).
  - unfold off. by intros ->.
Qed.

(** X30: removeAllListeners with a non-empty event name drops that event's
    handlers and no others; without a name, or with the empty string as
    name, it drops every handler of every event, after which no emit calls
    anybody; it never calls a handler itself. *)
Theorem removeAllListeners_scope (name : string) (e : EventEmitter) :
  (name ≠ "" →
     events (removeAllListeners (Some name) e) !! name = None ∧
     ∀ other, other ≠ name →
       events (removeAllListeners (Some name) e) !! other = events e !! other) ∧
  events (removeAllListeners None e) = ∅ ∧
  events (removeAllListeners (Some "") e) = ∅ ∧
  (∀ behaviour event args,
     emit behaviour event args (removeAllListeners None e) = removeAllListeners None e) ∧
  (∀ target, called (removeAllListeners target e) = called e).
Proof.
  split; [|split; [done|split; [done|split]]].
  - intros Hne. unfold removeAllListeners, truthy. rewrite decide_False by done. simpl.
    split; [apply lookup_delete_eq|]. intros other Ho. by rewrite lookup_delete_ne.
  - intros behaviour event args. unfold emit. simpl. by rewrite lookup_empty.
  - intros [target|]; [|done]. unfold removeAllListeners. by destruct (truthy target).
Qed.

End EmitterExtras.
